(** * B.L.A.D.E. dictation engine: hotkey matching, debounce, backend
    contract and large-file transcription workflow

    Shallow embedding of
      - [hotkey_manager.py]             (HotkeyManager)
      - [transcriber/base.py]           (TranscriptionBackend)
      - [transcriber/openai_backend.py] (OpenAIBackend)
      - [ui/main_window.py]             (MainWindow, transcription workflow)

    Conventions.
      - Python [str] is [string]; [str.split] is written out, [str.lower]
        and [str.strip] are written out on the 7-bit range.  The matcher
        is also given over an arbitrary [str.lower] ([HotkeyUnicode]),
        and it is that one the statement about matching is made of.
      - [time.time()] and the debounce interval are exact rationals; the
        rounding of floating point subtraction is not modelled.
      - A Python method that can raise returns a [result]; methods that
        touch the backend object, the outside world (API server, file
        system, the thread that presses cancel) or the Tk event queue are
        state transformers over [Machine].
      - Modules that are imported but are not part of the sources at hand
        ([audio_processor], [config], the OpenAI client, the [keyboard]
        library) are taken as parameters, bundled in [External]. *)

From Stdlib Require Import String Ascii List Bool Arith Lia ZArith QArith.
From Stdlib Require Import DecimalString.
Import ListNotations.
Close Scope Q_scope.
Local Open Scope string_scope.
Local Open Scope list_scope.

Set Implicit Arguments.

(* ================================================================== *)
(** * Python strings *)
(* ================================================================== *)

Module PyStr.

(** [str.lower] on the 7-bit range: 'A'..'Z' are shifted by 32, every
    other character is kept. *)
Definition lower_ascii (c : ascii) : ascii :=
  let n := nat_of_ascii c in
  if (65 <=? n)%nat && (n <=? 90)%nat then ascii_of_nat (n + 32) else c.

Fixpoint lower (s : string) : string :=
  match s with
  | EmptyString => EmptyString
  | String c rest => String (lower_ascii c) (lower rest)
  end.

(** [s.split(sep)] for a one-character separator.  The result is never
    empty: [''.split('+') == ['']] and ['+'.split('+') == ['', '']]. *)
Fixpoint split (sep : ascii) (s : string) : list string :=
  match s with
  | EmptyString => [EmptyString]
  | String c rest =>
      if Ascii.eqb c sep then EmptyString :: split sep rest
      else match split sep rest with
           | [] => [String c EmptyString]
           | tok :: toks => String c tok :: toks
           end
  end.

(** Characters removed by [str.strip()] with no argument. *)
Definition is_space (c : ascii) : bool :=
  let n := nat_of_ascii c in
  ((9 <=? n)%nat && (n <=? 13)%nat) || ((28 <=? n)%nat && (n <=? 32)%nat).

Fixpoint lstrip (s : string) : string :=
  match s with
  | EmptyString => EmptyString
  | String c rest => if is_space c then lstrip rest else s
  end.

(** [rstrip]: a character is dropped when it is blank and everything
    after it has been dropped. *)
Fixpoint rstrip (s : string) : string :=
  match s with
  | EmptyString => EmptyString
  | String c rest =>
      match rstrip rest with
      | EmptyString => if is_space c then EmptyString else String c EmptyString
      | r => String c r
      end
  end.

Definition strip (s : string) : string := rstrip (lstrip s).

(** [x in xs] for a list of strings. *)
Definition mem (x : string) (xs : list string) : bool :=
  existsb (String.eqb x) xs.

End PyStr.

(* ================================================================== *)
(** * hotkey_manager.py *)
(* ================================================================== *)

Module Hotkey.
Import PyStr.
Local Open Scope Q_scope.

(** The part of a [keyboard] event the matcher reads. *)
Record KeyEvent := { name : string }.

(** [keyboard.is_pressed]: the live state of the keyboard, queried by
    key name.  One snapshot serves a whole call of the matcher. *)
Definition Keyboard := string -> bool.

(** The [for modifier in modifiers] loop of [_matches_hotkey]:
    [false] is the early [return False], [true] is falling through. *)
Fixpoint check_modifiers (is_pressed : Keyboard) (modifiers : list string)
  : bool :=
  match modifiers with
  | [] => true
  | modifier :: rest =>
      if (modifier =? "ctrl") && negb (is_pressed "ctrl") then false
      else if (modifier =? "alt") && negb (is_pressed "alt") then false
      else if (modifier =? "shift") && negb (is_pressed "shift") then false
      else if (modifier =? "win") && negb (is_pressed "win") then false
      else check_modifiers is_pressed rest
  end.

(** [HotkeyManager._matches_hotkey]. *)
Definition matches_hotkey (is_pressed : Keyboard) (event : KeyEvent)
           (hotkey_string : string) : bool :=
  if hotkey_string =? "" then false
  else
    let parts := split "+" (lower hotkey_string) in
    let main_key := last parts "" in
    let modifiers := removelast parts in
    if negb (lower (name event) =? main_key) then false
    else if negb (check_modifiers is_pressed modifiers) then false
    else if negb (mem "ctrl" modifiers) && is_pressed "ctrl" then false
    else if negb (mem "alt" modifiers) && is_pressed "alt" then false
    else if negb (mem "shift" modifiers) && is_pressed "shift" then false
    else if negb (mem "win" modifiers) && is_pressed "win" then false
    else true.

(** The fields of [HotkeyManager] that the debounce guard and the
    enable toggle use. *)
Record HotkeyManager := {
  program_enabled : bool;
  last_trigger_time : Q
}.

Definition set_last_trigger_time (t : Q) (self : HotkeyManager)
  : HotkeyManager :=
  {| program_enabled := program_enabled self; last_trigger_time := t |}.

(** [HotkeyManager.__init__]: [_last_trigger_time = 0]. *)
Definition init : HotkeyManager :=
  {| program_enabled := true; last_trigger_time := 0 |}.

(** [x > y] on rationals. *)
Definition Qgtb (x y : Q) : bool := negb (Qle_bool x y).

(** [HotkeyManager._should_trigger_record_toggle].  [current_time] is
    the value read from [time.time()], [debounce_ms] is
    [config.HOTKEY_DEBOUNCE_MS]. *)
Definition should_trigger_record_toggle
           (debounce_ms : Q) (current_time : Q) (self : HotkeyManager)
  : bool * HotkeyManager :=
  if Qgtb (current_time - last_trigger_time self) (debounce_ms / 1000)
  then (true, set_last_trigger_time current_time self)
  else (false, self).

(** A burst of record-toggle key presses, one guard call per press:
    how many of them reach [on_record_toggle]. *)
Fixpoint count_triggers (debounce_ms : Q) (times : list Q)
         (self : HotkeyManager) : nat :=
  match times with
  | [] => 0
  | t :: rest =>
      let '(fire, self') := should_trigger_record_toggle debounce_ms t self in
      (if fire then 1 else 0) + count_triggers debounce_ms rest self'
  end.

(** A manager whose last accepted trigger was at second 1000. *)
Definition triggered_at_1000 : HotkeyManager :=
  {| program_enabled := true; last_trigger_time := 1000 |}.

(** ** The hotkey specification, as the design document words it *)

(** The four modifier classes. *)
Definition modifier_classes : list string := ["ctrl"; "alt"; "shift"; "win"].

(** Final token of the spec string. *)
Definition spec_main_key (spec : string) : string :=
  last (split "+" spec) "".

(** All tokens before the final one. *)
Definition spec_modifiers (spec : string) : list string :=
  removelast (split "+" spec).

(** A modifier class is required when it is listed, in any letter case. *)
Definition spec_requires (spec : string) (m : string) : bool :=
  mem m (map lower (spec_modifiers spec)).

End Hotkey.

(* ================================================================== *)
(** * Python control flow: exceptions over explicit state *)
(* ================================================================== *)

Module Py.

(** An exception object: its class and [str(e)].  Every exception of the
    model is an instance of [Exception], so [except Exception] catches
    it. *)
Record exn := { exn_class : string; exn_msg : string }.

(** [Exception(msg)], the only exception the modelled code constructs. *)
Definition Exception (msg : string) : exn :=
  {| exn_class := "Exception"; exn_msg := msg |}.

Inductive result (A : Type) : Type :=
| Ok (a : A)
| Raise (e : exn).
Arguments Ok {A} a.
Arguments Raise {A} e.

Definition is_raise {A : Type} (r : result A) : bool :=
  match r with Ok _ => false | Raise _ => true end.

(** A statement that reads and writes a state [S] and either yields a
    value or raises. *)
Definition M (S A : Type) : Type := S -> result A * S.

Definition ret {S A : Type} (a : A) : M S A := fun s => (Ok a, s).

Definition raise {S A : Type} (e : exn) : M S A := fun s => (Raise e, s).

Definition bind {S A B : Type} (m : M S A) (k : A -> M S B) : M S B :=
  fun s => match m s with
           | (Ok a, s') => k a s'
           | (Raise e, s') => (Raise e, s')
           end.

Definition gets {S A : Type} (f : S -> A) : M S A := fun s => (Ok (f s), s).

Definition modify {S : Type} (f : S -> S) : M S unit := fun s => (Ok tt, f s).

(** [try: body  except Exception as e: handler(e)]. *)
Definition try_except {S A : Type} (body : M S A) (handler : exn -> M S A)
  : M S A :=
  fun s => match body s with
           | (Ok a, s') => (Ok a, s')
           | (Raise e, s') => handler e s'
           end.

(** [try: body  finally: final].  The final block runs on every exit of
    the body; when it completes, the body's value or exception stands,
    and when it raises, its exception replaces them. *)
Definition try_finally {S A : Type} (body : M S A) (final : M S unit)
  : M S A :=
  fun s => match body s with
           | (r, s') =>
               match final s' with
               | (Ok _, s'') => (r, s'')
               | (Raise e, s'') => (Raise e, s'')
               end
           end.

(** [except Exception as e: logging.error(...); raise]. *)
Definition log_and_reraise {S A : Type} (body : M S A) : M S A :=
  try_except body (fun e => raise e).

Declare Scope py_scope.
Delimit Scope py_scope with py.
Notation "x <- m ;; k" := (bind m (fun x => k))
  (at level 61, m at next level, right associativity) : py_scope.
Notation "m ;; k" := (bind m (fun _ => k))
  (at level 61, right associativity) : py_scope.

(** [str(n)] for a natural number. *)
Definition str_of_nat (n : nat) : string :=
  NilEmpty.string_of_uint (Nat.to_uint n).

End Py.

(* ================================================================== *)
(** * Python objects: classes, instances and [hasattr] *)
(* ================================================================== *)

Module PyObj.
Import PyStr.

(** A class: its name, the names bound in its body, and its bases. *)
#[warnings="-register-all"]
Inductive pyclass : Type :=
| Class (cname : string) (own : list string) (bases : list pyclass).

(** Attribute lookup along the bases: is [attr] bound in the class or in
    one of its ancestors. *)
Fixpoint class_has (c : pyclass) (attr : string) : bool :=
  match c with
  | Class _ own bases =>
      mem attr own ||
      (fix any (bs : list pyclass) : bool :=
         match bs with
         | [] => false
         | b :: bs' => class_has b attr || any bs'
         end) bases
  end.

(** [issubclass(d, c)]. *)
Inductive subclass : pyclass -> pyclass -> Prop :=
| subclass_refl (c : pyclass) : subclass c c
| subclass_base (n : string) (own : list string) (bases : list pyclass)
                (b c : pyclass) :
    In b bases -> subclass b c -> subclass (Class n own bases) c.

(** An instance: its class and the keys of its [__dict__]. *)
Record instance := { cls : pyclass; inst_attrs : list string }.

(** [hasattr(obj, attr)]. *)
Definition hasattr (obj : instance) (attr : string) : bool :=
  mem attr (inst_attrs obj) || class_has (cls obj) attr.

Definition isinstance (obj : instance) (c : pyclass) : Prop :=
  subclass (cls obj) c.

(** [abc.ABC]. *)
Definition ABC : pyclass := Class "ABC" [] [].

(** [class TranscriptionBackend(ABC)] of [transcriber/base.py], with the
    names its body binds. *)
Definition TranscriptionBackend : pyclass :=
  Class "TranscriptionBackend"
        ["__init__"; "transcribe"; "is_available"; "cancel_transcription";
         "reset_cancel_flag"; "transcribe_chunks"; "name"]
        [ABC].

(** [class OpenAIBackend(TranscriptionBackend)] of
    [transcriber/openai_backend.py]. *)
Definition OpenAIBackend : pyclass :=
  Class "OpenAIBackend"
        ["__init__"; "_get_api_key"; "_initialize_client";
         "_get_api_model_name"; "transcribe"; "is_available";
         "update_api_key"; "transcribe_chunks"; "change_model_type"; "name"]
        [TranscriptionBackend].

End PyObj.

(* ================================================================== *)
(** * The outside world *)
(* ================================================================== *)

Module Env.
Import Py.

(** What one blocking request to the transcription API amounts to: the
    response text or the exception of [open] or of the client, and
    whether [cancel_transcription] was invoked on the backend by another
    thread while the request was in flight. *)
Record ApiOutcome := {
  api_response : result string;
  cancel_pressed : bool
}.

(** The collaborators the modelled code calls but does not define.
    [World] is the state of everything outside the program.
      - [api_create model path]: [open(path, "rb")] followed by
        [client.audio.transcriptions.create(model=..., file=...,
        response_format="text")];
      - [split_audio_file path]: [audio_processor.split_audio_file], with
        the messages it passes to its progress callback and its value;
      - [cleanup_temp_files]: [audio_processor.cleanup_temp_files];
      - [combine_transcriptions]: [audio_processor.combine_transcriptions]. *)
Class External : Type := {
  World : Type;
  api_create : string -> string -> World -> ApiOutcome * World;
  split_audio_file :
    string -> World -> (list string * result (list string)) * World;
  cleanup_temp_files : World -> result unit * World;
  combine_transcriptions : list string -> string
}.

End Env.

(* ================================================================== *)
(** * transcriber/base.py *)
(* ================================================================== *)

Module Base.
Import Py Env.
Local Open Scope py_scope.

(** The fields [TranscriptionBackend.__init__] creates, and the fields
    [sub] a subclass adds. *)
Record Backend (X : Type) : Type := {
  is_transcribing : bool;
  should_cancel : bool;
  sub : X
}.

(** [TranscriptionBackend.__init__]. *)
Definition init {X : Type} (x : X) : Backend X :=
  {| is_transcribing := false; should_cancel := false; sub := x |}.

Definition set_is_transcribing {X : Type} (v : bool) (b : Backend X)
  : Backend X :=
  {| is_transcribing := v; should_cancel := should_cancel b; sub := sub b |}.

Definition set_should_cancel {X : Type} (v : bool) (b : Backend X)
  : Backend X :=
  {| is_transcribing := is_transcribing b; should_cancel := v; sub := sub b |}.

Definition set_sub {X : Type} (x : X) (b : Backend X) : Backend X :=
  {| is_transcribing := is_transcribing b;
     should_cancel := should_cancel b; sub := x |}.

(** [TranscriptionBackend.cancel_transcription]. *)
Definition cancel_transcription {X : Type} (b : Backend X) : Backend X :=
  set_should_cancel true b.

(** [TranscriptionBackend.reset_cancel_flag]. *)
Definition reset_cancel_flag {X : Type} (b : Backend X) : Backend X :=
  set_should_cancel false b.

(** The raised cancellation: [Exception("Transcription cancelled")]. *)
Definition cancelled : exn := Exception "Transcription cancelled".

(** What a backend does that can be observed from outside, in order. *)
Inductive Call : Type :=
| ApiRequest (api_model path : string) (busy : bool)
             (response : result string)
| Transcribe (path : string) (outcome : result string)
| Combine (transcriptions : list string).

(** The audio files a record of calls shows to have been submitted for
    transcription, in order. *)
Definition requested_path (c : Call) : list string :=
  match c with
  | ApiRequest _ path _ _ => [path]
  | Transcribe path _ => [path]
  | Combine _ => []
  end.

Definition requested (cs : list Call) : list string :=
  flat_map requested_path cs.

(** The record of a per-chunk [transcribe] call that returned, and of an
    API request that was answered while [is_transcribing] was set. *)
Definition transcribed_ok (ct : string * string) : Call :=
  Transcribe (fst ct) (Ok (snd ct)).

Definition answered_ok (api_model : string) (cr : string * string) : Call :=
  ApiRequest api_model (fst cr) true (Ok (snd cr)).

(** The value [is_transcribing] had during each API request of a record
    of calls. *)
Definition busy_flags (cs : list Call) : list bool :=
  flat_map (fun c => match c with
                     | ApiRequest _ _ busy _ => [busy]
                     | _ => []
                     end) cs.

Section Machine.
Context {E : External}.

(** The backend object, the world and the record of calls so far.
    [calls] is a ghost field: the code never reads it. *)
Record BMachine (X : Type) : Type := {
  self : Backend X;
  world : World;
  calls : list Call
}.

Definition with_self {X : Type} (f : Backend X -> Backend X)
           (s : BMachine X) : BMachine X :=
  {| self := f (self s); world := world s; calls := calls s |}.

Definition record_call {X : Type} (c : Call) (s : BMachine X) : BMachine X :=
  {| self := self s; world := world s; calls := calls s ++ [c] |}.

(** An abstract method of a subclass: it may read and write the fields
    of the object and the world.  A cancel request that arrives while
    the method runs is part of its effect on [should_cancel]. *)
Definition Method (X A : Type) : Type :=
  Backend X * World -> result A * (Backend X * World).

(** [self.transcribe(path)] through dynamic dispatch to the subclass's
    [transcribe], recorded with its outcome. *)
Definition invoke {X : Type} (transcribe : string -> Method X string)
           (path : string) : M (BMachine X) string :=
  fun s =>
    let '(r, (b, w)) := transcribe path (self s, world s) in
    (r, {| self := b; world := w; calls := calls s ++ [Transcribe path r] |}).

(** [audio_processor.combine_transcriptions(transcriptions)]. *)
Definition call_combine {X : Type} (transcriptions : list string)
  : M (BMachine X) string :=
  fun s => (Ok (combine_transcriptions transcriptions),
            record_call (Combine transcriptions) s).

(** The [for chunk_file in chunk_files] loop of the default
    [transcribe_chunks]; [transcriptions] is the list built so far. *)
Fixpoint default_loop {X : Type} (transcribe : string -> Method X string)
         (chunk_files : list string) (transcriptions : list string)
  : M (BMachine X) (list string) :=
  match chunk_files with
  | [] => ret transcriptions
  | chunk_file :: rest =>
      flag <- gets (fun s => should_cancel (self s)) ;;
      if flag then raise cancelled
      else
        chunk_text <- invoke transcribe chunk_file ;;
        default_loop transcribe rest (transcriptions ++ [chunk_text])
  end.

(** [TranscriptionBackend.transcribe_chunks], the default every subclass
    inherits. *)
Definition transcribe_chunks {X : Type}
           (transcribe : string -> Method X string)
           (chunk_files : list string) : M (BMachine X) string :=
  transcriptions <- default_loop transcribe chunk_files [] ;;
  call_combine transcriptions.

End Machine.
End Base.

(* ================================================================== *)
(** * transcriber/openai_backend.py *)
(* ================================================================== *)

Module OpenAI.
Import PyStr Py Env Base.
Local Open Scope py_scope.

(** The [openai.OpenAI] client object. *)
Record Client := { client_api_key : string }.

(** The fields [OpenAIBackend.__init__] adds. *)
Record Fields := {
  model_type : string;
  api_key : option string;
  client : option Client
}.

Definition OpenAIBackend : Type := Backend Fields.

Definition set_client (c : option Client) (b : OpenAIBackend)
  : OpenAIBackend :=
  set_sub {| model_type := model_type (sub b);
             api_key := api_key (sub b); client := c |} b.

(** [OpenAIBackend._initialize_client].  [constructed] tells whether
    [OpenAI(api_key=...)] returned rather than raised. *)
Definition initialize_client (constructed : bool) (b : OpenAIBackend)
  : OpenAIBackend :=
  match api_key (sub b) with
  | Some key =>
      if key =? "" then set_client None b
      else if constructed then set_client (Some {| client_api_key := key |}) b
      else set_client None b
  | None => set_client None b
  end.

(** [OpenAIBackend.__init__], with [key] the value of
    [api_key or self._get_api_key()]. *)
Definition init (model : string) (key : option string) (constructed : bool)
  : OpenAIBackend :=
  initialize_client constructed
    (Base.init {| model_type := model; api_key := key; client := None |}).

(** [OpenAIBackend.update_api_key]. *)
Definition update_api_key (key : string) (constructed : bool)
           (b : OpenAIBackend) : OpenAIBackend :=
  initialize_client constructed
    (set_sub {| model_type := model_type (sub b);
                api_key := Some key; client := client (sub b) |} b).

(** [OpenAIBackend.change_model_type]. *)
Definition change_model_type (model : string) (b : OpenAIBackend)
  : OpenAIBackend :=
  set_sub {| model_type := model;
             api_key := api_key (sub b); client := client (sub b) |} b.

(** [OpenAIBackend._get_api_model_name]. *)
Definition get_api_model_name (b : OpenAIBackend) : string :=
  if model_type (sub b) =? "api_gpt4o" then "gpt-4o-transcribe"
  else if model_type (sub b) =? "api_gpt4o_mini" then "gpt-4o-mini-transcribe"
  else "whisper-1".

(** [OpenAIBackend.is_available]. *)
Definition is_available (b : OpenAIBackend) : bool :=
  match client (sub b) with Some _ => true | None => false end
  && match api_key (sub b) with Some _ => true | None => false end.

Definition unavailable : exn :=
  Exception
    "OpenAI API is not available (no API key or client initialization failed)".

Section Machine.
Context {E : External}.

(** [with open(path, "rb") as audio_file:
       response = self.client.audio.transcriptions.create(...)].
    The request is recorded together with the value [is_transcribing]
    has while it is in flight; a cancel request arriving meanwhile sets
    [should_cancel]. *)
Definition request (api_model path : string)
  : M (BMachine Fields) string :=
  fun s =>
    let '(out, w) := api_create api_model path (world s) in
    let b := if cancel_pressed out then cancel_transcription (self s)
             else self s in
    (api_response out,
     {| self := b; world := w;
        calls := calls s ++ [ApiRequest api_model path
                                        (is_transcribing (self s))
                                        (api_response out)] |}).

(** The state after the first two statements of either [try] block:
    [self.is_transcribing = True; self.reset_cancel_flag()]. *)
Definition entered (s : BMachine Fields) : BMachine Fields :=
  with_self reset_cancel_flag (with_self (set_is_transcribing true) s).

(** The body of the [try] block of [transcribe]. *)
Definition transcribe_body (audio_file_path : string)
  : M (BMachine Fields) string :=
  modify (with_self (set_is_transcribing true)) ;;
  modify (with_self reset_cancel_flag) ;;
  api_model <- gets (fun s => get_api_model_name (self s)) ;;
  response <- request api_model audio_file_path ;;
  flag <- gets (fun s => should_cancel (self s)) ;;
  if flag then raise cancelled
  else ret (strip response).

(** [OpenAIBackend.transcribe]. *)
Definition transcribe (audio_file_path : string)
  : M (BMachine Fields) string :=
  available <- gets (fun s => is_available (self s)) ;;
  if negb available then raise unavailable
  else
    try_finally
      (log_and_reraise (transcribe_body audio_file_path))
      (modify (with_self (set_is_transcribing false))).

(** The [for i, chunk_file in enumerate(chunk_files)] loop of
    [transcribe_chunks]. *)
Fixpoint chunk_loop (api_model : string) (chunk_files : list string)
         (transcriptions : list string)
  : M (BMachine Fields) (list string) :=
  match chunk_files with
  | [] => ret transcriptions
  | chunk_file :: rest =>
      flag <- gets (fun s => should_cancel (self s)) ;;
      if flag then raise cancelled
      else
        response <- request api_model chunk_file ;;
        chunk_loop api_model rest (transcriptions ++ [strip response])
  end.

(** The body of the [try] block of [transcribe_chunks]. *)
Definition transcribe_chunks_body (chunk_files : list string)
  : M (BMachine Fields) string :=
  modify (with_self (set_is_transcribing true)) ;;
  modify (with_self reset_cancel_flag) ;;
  api_model <- gets (fun s => get_api_model_name (self s)) ;;
  transcriptions <- chunk_loop api_model chunk_files [] ;;
  call_combine transcriptions.

(** [OpenAIBackend.transcribe_chunks]. *)
Definition transcribe_chunks (chunk_files : list string)
  : M (BMachine Fields) string :=
  available <- gets (fun s => is_available (self s)) ;;
  if negb available then raise unavailable
  else
    try_finally
      (log_and_reraise (transcribe_chunks_body chunk_files))
      (modify (with_self (set_is_transcribing false))).

(** The states an [OpenAIBackend] can be in between two method calls,
    when its methods are called one after the other. *)
Inductive reachable : BMachine Fields -> Prop :=
| reach_init (model : string) (key : option string) (constructed : bool)
             (w : World) :
    reachable {| self := init model key constructed; world := w; calls := [] |}
| reach_transcribe (s : BMachine Fields) (path : string) :
    reachable s -> reachable (snd (transcribe path s))
| reach_transcribe_chunks (s : BMachine Fields) (chunks : list string) :
    reachable s -> reachable (snd (transcribe_chunks chunks s))
| reach_cancel_transcription (s : BMachine Fields) :
    reachable s -> reachable (with_self cancel_transcription s)
| reach_reset_cancel_flag (s : BMachine Fields) :
    reachable s -> reachable (with_self reset_cancel_flag s)
| reach_update_api_key (s : BMachine Fields) (key : string)
                       (constructed : bool) :
    reachable s -> reachable (with_self (update_api_key key constructed) s)
| reach_change_model_type (s : BMachine Fields) (model : string) :
    reachable s -> reachable (with_self (change_model_type model) s).

End Machine.
End OpenAI.

(* ================================================================== *)
(** * A small concrete world, for examples *)
(* ================================================================== *)

Module Demo.
Import PyStr Py Env Base.

(** A world without state.  The API answers every request with the path
    between blanks; [cancel_at] tells during which requests the user
    presses cancel.  Splitting always yields three chunks. *)
Definition studio (cancel_at : string -> bool) : External :=
  {| World := unit;
     api_create := fun _ path w =>
       ({| api_response := Ok (" " ++ path ++ " ")%string;
           cancel_pressed := cancel_at path |}, w);
     split_audio_file := fun _ w =>
       ((["Splitting into 3 chunks"], Ok ["c1"; "c2"; "c3"]), w);
     cleanup_temp_files := fun w => (Ok tt, w);
     combine_transcriptions := String.concat " " |}.

Definition never (path : string) : bool := false.

Definition during_c2 (path : string) : bool := path =? "c2".

(** A subclass's [transcribe] that returns the path as the text; the
    user presses cancel during the calls picked by [cancel_at]. *)
Definition echo (cancel_at : string -> bool) (path : string)
  : @Method (studio cancel_at) unit string :=
  fun bw =>
    (Ok path,
     (if cancel_at path then cancel_transcription (fst bw) else fst bw,
      snd bw)).

Arguments echo cancel_at path : clear implicits.

(** A fresh backend object in this world, with no call made yet. *)
Definition start {X : Type} (cancel_at : string -> bool) (b : Backend X)
  : @BMachine (studio cancel_at) X :=
  @Build_BMachine (studio cancel_at) X b tt [].

Arguments start {X} cancel_at b.

Definition three_chunks : list string := ["c1"; "c2"; "c3"].

(** An [OpenAIBackend] constructed with a key. *)
Definition ready : OpenAI.OpenAIBackend :=
  OpenAI.init "api_whisper" (Some "sk-demo") true.

(** An [OpenAIBackend] constructed without a key. *)
Definition keyless : OpenAI.OpenAIBackend :=
  OpenAI.init "api_whisper" None true.

End Demo.

(* ================================================================== *)
(** * ui/main_window.py: the transcription workflow *)
(* ================================================================== *)

Module MainWindow.
Import PyStr Py Env Base PyObj.
Local Open Scope py_scope.

(** ** Handlers that run on the Tk thread *)

Inductive Widget : Type :=
| CancelButton | StartButton | StopButton | OpenFileButton.

Inductive WidgetState : Type := NORMAL | DISABLED.

(** What a handler does to the user interface, in order. *)
Inductive UiAction : Type :=
| ClearStatus
| SetStatus (status : string) (show_overlay : bool)
| ShowError (title message : string)
| ShowCanceling (message : string)
| ShowTranscription (text : string)
| PasteText (text : string)
| Configure (w : Widget) (st : WidgetState)
| StopRecorder
| ClearRecording.

(** [MainWindow._on_transcription_complete]. *)
Definition on_transcription_complete (transcribed_text : string)
  : list UiAction :=
  [ShowTranscription ("Transcription: " ++ transcribed_text);
   PasteText transcribed_text;
   ClearStatus;
   SetStatus "Ready (Pasted)" false;
   Configure CancelButton DISABLED;
   Configure StartButton NORMAL;
   Configure OpenFileButton NORMAL].

(** [MainWindow._on_transcription_error]: [messagebox.showerror] is the
    error dialog. *)
Definition on_transcription_error (error_message : string)
  : list UiAction :=
  [ClearStatus;
   ShowError "Error" ("Transcription failed: " ++ error_message);
   SetStatus "Ready" false;
   Configure CancelButton DISABLED;
   Configure StartButton NORMAL;
   Configure OpenFileButton NORMAL].

(** [MainWindow.cancel_transcription], the handler of the cancel button
    and of the cancel hotkey.  [is_recording] is
    [self.recorder.is_recording]. *)
Definition cancel_transcription {X : Type} (is_recording : bool)
           (current_backend : Backend X) : Backend X * list UiAction :=
  if is_recording then
    (current_backend,
     [StopRecorder; ClearRecording;
      Configure StartButton NORMAL; Configure StopButton DISABLED;
      Configure OpenFileButton NORMAL;
      ShowCanceling "Recording Cancelled";
      Configure CancelButton DISABLED])
  else if is_transcribing current_backend then
    (Base.cancel_transcription current_backend,
     [Configure StartButton NORMAL; Configure OpenFileButton NORMAL;
      ShowCanceling "Transcription Cancelled";
      Configure CancelButton DISABLED])
  else
    (current_backend,
     [ShowCanceling "Cancelled";
      Configure StartButton NORMAL; Configure OpenFileButton NORMAL;
      Configure CancelButton DISABLED]).

(** A unit of work handed to the Tk thread. *)
Inductive Callback : Type :=
| UpdateStatus (status : string)
| OnTranscriptionComplete (transcribed_text : string)
| OnTranscriptionError (error_message : string).

(** What the Tk thread does when it runs the callback. *)
Definition run_callback (cb : Callback) : list UiAction :=
  match cb with
  | UpdateStatus status => [SetStatus status true]
  | OnTranscriptionComplete text => on_transcription_complete text
  | OnTranscriptionError msg => on_transcription_error msg
  end.

(** ** The worker thread *)

(** What the worker does that can be observed from outside, in order. *)
Inductive Event : Type :=
| BackendCall (c : Call)
| SplitAudio (path : string)
| CleanupTempFiles
| Now (cb : Callback)
| After (cb : Callback).

Definition is_cleanup (e : Event) : bool :=
  match e with CleanupTempFiles => true | _ => false end.

(** How many times [cleanup_temp_files] was invoked in a trace. *)
Definition cleanups (tr : list Event) : nat :=
  length (filter is_cleanup tr).

Section Machine.
Context {E : External}.
Context {X : Type}.

(** The state a worker runs in.  [trace] is a ghost field. *)
Record Machine : Type := {
  backend : Backend X;
  outside : World;
  trace : list Event
}.

Definition emit (evs : list Event) (s : Machine) : Machine :=
  {| backend := backend s; outside := outside s; trace := trace s ++ evs |}.

(** [self.current_backend]: the Python object and its bound methods.
    [bound_transcribe_chunks] is what attribute lookup finds when
    [hasattr(self.current_backend, 'transcribe_chunks')] holds. *)
Record BackendObject : Type := {
  py_object : instance;
  bound_transcribe : string -> M (BMachine X) string;
  bound_transcribe_chunks : list string -> M (BMachine X) string
}.

(** A method call on the backend: it runs on the backend object and the
    world, and what it records is appended to the worker's trace. *)
Definition on_backend {A : Type} (m : M (BMachine X) A) : M Machine A :=
  fun s =>
    let '(r, b) := m {| self := backend s; world := outside s; calls := [] |} in
    (r, {| backend := self b; outside := world b;
           trace := trace s ++ map BackendCall (calls b) |}).

(** [self.root.after(0, ...)]. *)
Definition after (cb : Callback) : M Machine unit :=
  modify (emit [After cb]).

(** A call made on the user interface from the worker itself. *)
Definition now (cb : Callback) : M Machine unit :=
  modify (emit [Now cb]).

(** [audio_processor.split_audio_file(audio_file, progress_callback)],
    where [progress_callback] schedules a status update per message. *)
Definition split_audio (audio_file : string) : M Machine (list string) :=
  fun s =>
    let '((messages, r), w) := split_audio_file audio_file (outside s) in
    (r, {| backend := backend s; outside := w;
           trace := trace s ++ SplitAudio audio_file
                      :: map (fun m => After (UpdateStatus m)) messages |}).

(** [audio_processor.cleanup_temp_files()]. *)
Definition cleanup : M Machine unit :=
  fun s =>
    let '(r, w) := cleanup_temp_files (outside s) in
    (r, {| backend := backend s; outside := w;
           trace := trace s ++ [CleanupTempFiles] |}).

(** The branch taken when the backend has [transcribe_chunks]. *)
Definition batch_path (be : BackendObject) (chunk_files : list string)
  : M Machine string :=
  after (UpdateStatus ("Transcribing " ++ str_of_nat (length chunk_files)
                         ++ " chunks...")) ;;
  on_backend (bound_transcribe_chunks be chunk_files).

(** The [for i, chunk_file in enumerate(chunk_files)] loop of the
    fallback branch; [i] is the index of the head of [chunk_files] and
    [total_chunks] is the length of the whole list.  The status text is
    built here, at the time the callback is scheduled. *)
Fixpoint fallback_loop (be : BackendObject) (total_chunks i : nat)
         (chunk_files : list string) (transcriptions : list string)
  : M Machine (list string) :=
  match chunk_files with
  | [] => ret transcriptions
  | chunk_file :: rest =>
      let current_chunk := i + 1 in
      after (UpdateStatus ("Transcribing chunk " ++ str_of_nat current_chunk
                             ++ "/" ++ str_of_nat total_chunks ++ "...")) ;;
      chunk_transcription <- on_backend (bound_transcribe be chunk_file) ;;
      fallback_loop be total_chunks (i + 1) rest
                    (transcriptions ++ [chunk_transcription])
  end.

(** The branch taken when the backend has no [transcribe_chunks]. *)
Definition fallback_path (be : BackendObject) (chunk_files : list string)
  : M Machine string :=
  transcriptions <- fallback_loop be (length chunk_files) 0 chunk_files [] ;;
  after (UpdateStatus "Combining transcriptions...") ;;
  ret (combine_transcriptions transcriptions).

(** Step 2 of the workflow. *)
Definition transcribe_step (be : BackendObject) (chunk_files : list string)
  : M Machine string :=
  if hasattr (py_object be) "transcribe_chunks"
  then batch_path be chunk_files
  else fallback_path be chunk_files.

(** The [try] block of the large-file workflow, with [step] for step 2. *)
Definition workflow_body (step : list string -> M Machine string)
           (audio_file : string) : M Machine unit :=
  after (UpdateStatus "Processing large audio file...") ;;
  chunk_files <- split_audio audio_file ;;
  match chunk_files with
  | [] => raise (Exception "Failed to split audio file into chunks")
  | _ :: _ =>
      transcribed_text <- step chunk_files ;;
      after (OnTranscriptionComplete transcribed_text)
  end.

(** The large-file workflow: [try] / [except Exception as e] /
    [finally], the final block being itself a [try] around the cleanup
    whose handler only logs. *)
Definition workflow (step : list string -> M Machine string)
           (audio_file : string) : M Machine unit :=
  try_finally
    (try_except (workflow_body step audio_file)
                (fun e => after (OnTranscriptionError (exn_msg e))))
    (try_except cleanup (fun _ => ret tt)).

(** [MainWindow._transcribe_large_audio_from_file]. *)
Definition transcribe_large_audio_from_file (be : BackendObject)
           (audio_file : string) : M Machine unit :=
  workflow (transcribe_step be) audio_file.

(** [MainWindow._transcribe_large_audio]: the same statements on
    [config.RECORDED_AUDIO_FILE]. *)
Definition transcribe_large_audio (recorded_audio_file : string)
           (be : BackendObject) : M Machine unit :=
  workflow (transcribe_step be) recorded_audio_file.

(** [MainWindow._transcribe_audio_from_file], the workflow for a file
    that needs no splitting; [_transcribe_audio] is the same on
    [config.RECORDED_AUDIO_FILE]. *)
Definition transcribe_audio_from_file (be : BackendObject)
           (audio_file : string) : M Machine unit :=
  try_except
    (now (UpdateStatus "Transcribing...") ;;
     transcribed_text <- on_backend (bound_transcribe be audio_file) ;;
     after (OnTranscriptionComplete transcribed_text))
    (fun e => after (OnTranscriptionError (exn_msg e))).

(** A backend object of class [c] that inherits the default
    [transcribe_chunks] and implements [transcribe]. *)
Definition inheriting_backend (c : pyclass)
           (transcribe : string -> Method X string) : BackendObject :=
  {| py_object := {| cls := c;
                     inst_attrs := ["is_transcribing"; "should_cancel"] |};
     bound_transcribe := invoke transcribe;
     bound_transcribe_chunks := Base.transcribe_chunks transcribe |}.

(** A backend object of a class [c] that implements [transcribe] and has
    no [transcribe_chunks]: looking the method up raises. *)
Definition lacking_backend (c : pyclass)
           (transcribe : string -> Method X string) : BackendObject :=
  {| py_object := {| cls := c;
                     inst_attrs := ["is_transcribing"; "should_cancel"] |};
     bound_transcribe := invoke transcribe;
     bound_transcribe_chunks := fun _ =>
       raise {| exn_class := "AttributeError";
                exn_msg := "object has no attribute 'transcribe_chunks'" |} |}.

(** A statement whose every run appends to the trace, with exactly [k]
    invocations of [cleanup_temp_files] among what it appends. *)
Definition appends_cleanups {A : Type} (k : nat) (m : M Machine A) : Prop :=
  forall s, exists new,
    trace (snd (m s)) = trace s ++ new /\ cleanups new = k.

End Machine.

Arguments Machine {E} X.
Arguments BackendObject {E} X.

(** What the Tk thread does for the callbacks of a trace, in order. *)
Definition ui_actions (tr : list Event) : list UiAction :=
  flat_map (fun e => match e with
                     | Now cb | After cb => run_callback cb
                     | _ => []
                     end) tr.

Definition is_canceling (a : UiAction) : bool :=
  match a with ShowCanceling _ => true | _ => false end.

Definition is_error_dialog (a : UiAction) : bool :=
  match a with ShowError _ _ => true | _ => false end.

End MainWindow.

(* ================================================================== *)
(** * Concrete backend objects, for examples *)
(* ================================================================== *)

Module DemoUI.
Import PyStr Py Env Base PyObj MainWindow.

(** A subclass of [TranscriptionBackend] that only implements the two
    abstract methods. *)
Definition EchoBackend : pyclass :=
  Class "EchoBackend" ["transcribe"; "is_available"] [TranscriptionBackend].

(** A class outside the hierarchy, with the two methods and nothing
    else. *)
Definition LegacyBackend : pyclass :=
  Class "LegacyBackend" ["transcribe"; "is_available"] [].

Definition echo_backend (cancel_at : string -> bool)
  : @BackendObject (Demo.studio cancel_at) unit :=
  @inheriting_backend (Demo.studio cancel_at) unit EchoBackend
                      (Demo.echo cancel_at).

Definition legacy_backend (cancel_at : string -> bool)
  : @BackendObject (Demo.studio cancel_at) unit :=
  @lacking_backend (Demo.studio cancel_at) unit LegacyBackend
                   (Demo.echo cancel_at).

(** A worker about to start, nothing recorded yet. *)
Definition idle (cancel_at : string -> bool)
  : @Machine (Demo.studio cancel_at) unit :=
  @Build_Machine (Demo.studio cancel_at) unit (Base.init tt) tt [].

Arguments echo_backend cancel_at : clear implicits.
Arguments legacy_backend cancel_at : clear implicits.
Arguments idle cancel_at : clear implicits.

End DemoUI.

(* ================================================================== *)
(** * Python dictionaries with string keys and values *)
(* ================================================================== *)

Module PyDict.
Import Py.

(** A [dict] in insertion order; a key occurs at most once in a
    dictionary built with [set_item] from the empty one. *)
Definition dict : Type := list (string * string).

(** [d.get(k)]. *)
Fixpoint get (d : dict) (k : string) : option string :=
  match d with
  | [] => None
  | (k', v) :: rest => if k' =? k then Some v else get rest k
  end.

(** [KeyError(k)]; its text is [repr(k)]. *)
Definition KeyError (k : string) : exn :=
  {| exn_class := "KeyError"; exn_msg := "'" ++ k ++ "'" |}.

(** [d[k]]. *)
Definition getitem (d : dict) (k : string) : result string :=
  match get d k with
  | Some v => Ok v
  | None => Raise (KeyError k)
  end.

(** [d[k] = v]: a present key keeps its place, a new one goes last. *)
Fixpoint set_item (d : dict) (k v : string) : dict :=
  match d with
  | [] => [(k, v)]
  | (k', v') :: rest =>
      if k' =? k then (k, v) :: rest else (k', v') :: set_item rest k v
  end.

(** [d.update(new)]. *)
Definition update (d new : dict) : dict :=
  fold_left (fun acc kv => set_item acc (fst kv) (snd kv)) new d.

(** The value bound last to [k] in a sequence of items. *)
Definition last_binding (items : dict) (k : string) : option string :=
  get (rev items) k.

End PyDict.

(* ================================================================== *)
(** * hotkey_manager.py: the event handler *)
(* ================================================================== *)

Module HotkeyEvents.
Import PyStr Py PyDict Hotkey.

(** [event.event_type]. *)
Inductive EventType : Type := KEY_DOWN | KEY_UP.

Record KeyboardEvent := {
  event_type : EventType;
  key : KeyEvent
}.

(** A callable handed to [set_callbacks], known by a number. *)
Definition callback : Type := nat.

(** The whole [HotkeyManager] object: the two fields of [Hotkey], the
    hotkey mapping and the four callbacks. *)
Record Manager := {
  state : HotkeyManager;
  hotkeys : dict;
  on_record_toggle : option callback;
  on_cancel : option callback;
  on_enable_toggle : option callback;
  on_status_update : option callback
}.

Definition with_state (st : HotkeyManager) (m : Manager) : Manager :=
  {| state := st; hotkeys := hotkeys m;
     on_record_toggle := on_record_toggle m; on_cancel := on_cancel m;
     on_enable_toggle := on_enable_toggle m;
     on_status_update := on_status_update m |}.

Definition with_hotkeys (d : dict) (m : Manager) : Manager :=
  {| state := state m; hotkeys := d;
     on_record_toggle := on_record_toggle m; on_cancel := on_cancel m;
     on_enable_toggle := on_enable_toggle m;
     on_status_update := on_status_update m |}.

(** [HotkeyManager.__init__]: [hotkeys or config.DEFAULT_HOTKEYS.copy()]
    takes the defaults for [None] and for the empty mapping. *)
Definition init (default_hotkeys : dict) (given : option dict) : Manager :=
  {| state := Hotkey.init;
     hotkeys := match given with
                | Some (kv :: rest) => kv :: rest
                | _ => default_hotkeys
                end;
     on_record_toggle := None; on_cancel := None;
     on_enable_toggle := None; on_status_update := None |}.

(** [HotkeyManager.set_callbacks]: all four attributes are assigned,
    a parameter left out having the default [None]. *)
Definition set_callbacks (record_toggle cancel enable_toggle status_update
                          : option callback) (m : Manager) : Manager :=
  {| state := state m; hotkeys := hotkeys m;
     on_record_toggle := record_toggle; on_cancel := cancel;
     on_enable_toggle := enable_toggle; on_status_update := status_update |}.






(** [HotkeyManager.update_hotkeys], on the mapping; the hook is then
    removed and installed again. *)
Definition update_hotkeys (new_hotkeys : dict) (m : Manager) : Manager :=
  with_hotkeys (update (hotkeys m) new_hotkeys) m.

(** What the handler does besides returning: a callback started in a
    thread of its own, or the status callback called in place. *)
Inductive Effect : Type :=
| ThreadStart (target : callback)
| StatusCall (cb : callback) (message : string).

(** [HotkeyManager._toggle_program_enabled]. *)
Definition toggle_program_enabled (m : Manager) : Manager * list Effect :=
  let enabled := negb (program_enabled (state m)) in
  let m' := with_state {| program_enabled := enabled;
                          last_trigger_time := last_trigger_time (state m) |}
                       m in
  (m',
   match on_status_update m with
   | Some cb =>
       if negb enabled then [StatusCall cb "STT Disabled"]
       else [StatusCall cb "STT Enabled"]
   | None => []
   end).

Definition start_if_set (cb : option callback) : list Effect :=
  match cb with
  | Some target => [ThreadStart target]
  | None => []
  end.

(** [HotkeyManager._handle_keyboard_event].  The value is what the hook
    returns: [true] lets the key through, [false] suppresses it.
    [current_time] is what [time.time()] yields if it is read. *)
Definition handle_keyboard_event (debounce_ms : Q) (is_pressed : Keyboard)
           (current_time : Q) (event : KeyboardEvent) (m : Manager)
  : result bool * Manager * list Effect :=
  match event_type event with
  | KEY_DOWN =>
      match getitem (hotkeys m) "enable_disable" with
      | Raise e => (Raise e, m, [])
      | Ok enable_disable =>
          if matches_hotkey is_pressed (key event) enable_disable then
            let '(m', effects) := toggle_program_enabled m in
            (Ok false, m', effects)
          else if negb (program_enabled (state m)) then
            match getitem (hotkeys m) "enable_disable" with
            | Raise e => (Raise e, m, [])
            | Ok again =>
                if negb (matches_hotkey is_pressed (key event) again)
                then (Ok true, m, [])
                else (Ok true, m, [])
            end
          else
            match getitem (hotkeys m) "record_toggle" with
            | Raise e => (Raise e, m, [])
            | Ok record_toggle =>
                if matches_hotkey is_pressed (key event) record_toggle then
                  let '(fire, st) :=
                    should_trigger_record_toggle debounce_ms current_time
                                                 (state m) in
                  (Ok false, with_state st m,
                   if fire then start_if_set (on_record_toggle m) else [])
                else
                  match getitem (hotkeys m) "cancel" with
                  | Raise e => (Raise e, m, [])
                  | Ok cancel =>
                      if matches_hotkey is_pressed (key event) cancel
                      then (Ok false, m, start_if_set (on_cancel m))
                      else (Ok true, m, [])
                  end
            end
      end
  | KEY_UP => (Ok true, m, [])
  end.

(** The times at which a burst of record-toggle presses is let
    through by the debounce guard, oldest first. *)
Fixpoint accepted_triggers (debounce_ms : Q) (times : list Q)
         (self : HotkeyManager) : list Q :=
  match times with
  | [] => []
  | t :: rest =>
      let '(fire, self') := should_trigger_record_toggle debounce_ms t self in
      (if fire then [t] else []) ++ accepted_triggers debounce_ms rest self'
  end.

(** Every step from one time to the next is longer than [window]. *)
Fixpoint gaps_exceed (window : Q) (previous : Q) (times : list Q) : Prop :=
  match times with
  | [] => True
  | t :: rest => (window < t - previous)%Q /\ gaps_exceed window t rest
  end.

(** A sample mapping and a manager with three of the callbacks set,
    for examples. *)
Definition sample_hotkeys : dict :=
  [("record_toggle", "*"); ("cancel", "-"); ("enable_disable", "ctrl+alt+*")].

Definition sample_manager : Manager :=
  set_callbacks (Some 1) (Some 2) None (Some 3) (init sample_hotkeys None).

Definition key_down (k : string) : KeyboardEvent :=
  {| event_type := KEY_DOWN; key := {| name := k |} |}.

Definition nothing_held : Keyboard := fun _ => false.

End HotkeyEvents.

(* ================================================================== *)
(** * Reading a record of backend calls *)
(* ================================================================== *)

Module BackendTrace.
Import Py Base OpenAI.

(** The lists handed to [combine_transcriptions] in a record of calls,
    in order. *)
Definition combined_lists (cs : list Call) : list (list string) :=
  flat_map (fun c => match c with
                     | Combine ts => [ts]
                     | _ => []
                     end) cs.

(** The client of an [OpenAIBackend], when there is one, was built from
    the key the backend stores, and that key is not empty. *)
Definition client_matches_key (b : OpenAIBackend) : Prop :=
  match client (sub b) with
  | Some c => api_key (sub b) = Some (client_api_key c) /\
              client_api_key c <> ""
  | None => True
  end.

(** The two flags of a backend set to given values. *)
Definition with_flags {X : Type} (transcribing cancel : bool) (b : Backend X)
  : Backend X :=
  set_should_cancel cancel (set_is_transcribing transcribing b).

End BackendTrace.

(* ================================================================== *)
(** * ui/main_window.py: widgets, jobs and their entry points *)
(* ================================================================== *)

Module UiState.
Import PyStr Py Env Base MainWindow.

(** The [state] option of the four buttons the handlers configure. *)
Record Widgets := {
  cancel_button : WidgetState;
  start_button : WidgetState;
  stop_button : WidgetState;
  open_file_button : WidgetState
}.

(** [button.config(state=st)]. *)
Definition configure (w : Widget) (st : WidgetState) (ws : Widgets)
  : Widgets :=
  match w with
  | CancelButton =>
      {| cancel_button := st; start_button := start_button ws;
         stop_button := stop_button ws;
         open_file_button := open_file_button ws |}
  | StartButton =>
      {| cancel_button := cancel_button ws; start_button := st;
         stop_button := stop_button ws;
         open_file_button := open_file_button ws |}
  | StopButton =>
      {| cancel_button := cancel_button ws; start_button := start_button ws;
         stop_button := st; open_file_button := open_file_button ws |}
  | OpenFileButton =>
      {| cancel_button := cancel_button ws; start_button := start_button ws;
         stop_button := stop_button ws; open_file_button := st |}
  end.

Definition apply_action (ws : Widgets) (a : UiAction) : Widgets :=
  match a with
  | Configure w st => configure w st ws
  | _ => ws
  end.

(** The buttons after a handler has run. *)
Definition apply_actions (actions : list UiAction) (ws : Widgets) : Widgets :=
  fold_left apply_action actions ws.

(** The two callbacks that end a job. *)
Definition is_terminal (e : Event) : bool :=
  match e with
  | After (OnTranscriptionComplete _) | After (OnTranscriptionError _) => true
  | _ => false
  end.

(** A stretch of trace with no job-ending callback and no cleanup. *)
Definition uneventful (tr : list Event) : Prop :=
  forallb (fun e => negb (is_terminal e || is_cleanup e)) tr = true.

Section Machine.
Context {E : External} {X : Type}.

(** A statement whose every run appends an uneventful stretch. *)
Definition appends_uneventful {A : Type} (m : M (Machine X) A) : Prop :=
  forall s, exists new,
    trace (snd (m s)) = trace s ++ new /\ uneventful new.

End Machine.

(** ** Entry points *)

(** What [self.executor.submit] is given. *)
Inductive Job : Type :=
| DirectJob (audio_file : string)
| LargeJob (audio_file : string).

(** What [MainWindow.stop_recording] learns from the recorder, the file
    system and the audio processor, in the order it asks:
    [recorder.stop_recording()], [recorder.has_recording_data()],
    [recorder.save_recording()], [os.path.exists] and [os.path.getsize]
    of the recorded file, [audio_processor.check_file_size] (whether the
    file needs splitting and its size in MB printed with one decimal),
    and [recorder.get_recording_duration()] for the log line. *)
Record RecorderProbe := {
  stopped : bool;
  has_recording_data : bool;
  saved : bool;
  recorded_exists : bool;
  recorded_size : nat;
  recorded_check : result (bool * string);
  duration : result unit
}.

Definition processing_large_file (size_mb : string) : string :=
  "Processing large file (" ++ size_mb ++ " MB)...".

(** [MainWindow.stop_recording]: the handler's actions on the user
    interface and the jobs it submits. *)
Definition stop_recording (recorded_audio_file : string) (p : RecorderProbe)
  : list UiAction * list Job :=
  let first := [Configure StartButton DISABLED;
                Configure StopButton DISABLED;
                SetStatus "Transcribing..." true] in
  if negb (stopped p) then (first, [])
  else if negb (has_recording_data p) then
    (first ++ on_transcription_error "No audio data recorded", [])
  else if negb (saved p) then
    (first ++ on_transcription_error "Failed to save audio file", [])
  else if negb (recorded_exists p) then
    (first ++ on_transcription_error "Audio file not created", [])
  else if (recorded_size p <? 100)%nat then
    (first ++ on_transcription_error "Audio file is empty or corrupted", [])
  else
    match recorded_check p with
    | Raise e =>
        (first ++ on_transcription_error
                    ("Failed to process audio file: " ++ exn_msg e), [])
    | Ok (needs_splitting, size_mb) =>
        let submitted :=
          if needs_splitting
          then ([SetStatus (processing_large_file size_mb) true],
                [LargeJob recorded_audio_file])
          else ([], [DirectJob recorded_audio_file]) in
        match duration p with
        | Ok _ => (first ++ fst submitted, snd submitted)
        | Raise e =>
            (first ++ fst submitted
               ++ on_transcription_error
                    ("Failed to process audio file: " ++ exn_msg e),
             snd submitted)
        end
    end.

(** What [MainWindow.open_audio_file] learns: the name the file chooser
    returned (empty when dismissed), [os.path.exists] and
    [os.path.getsize] of it, and [audio_processor.check_file_size]. *)
Record FileProbe := {
  filename : string;
  chosen_exists : bool;
  chosen_size : nat;
  chosen_check : result (bool * string)
}.

(** [MainWindow.open_audio_file]. *)
Definition open_audio_file (p : FileProbe) : list UiAction * list Job :=
  if filename p =? "" then ([], [])
  else if negb (chosen_exists p) then
    ([ShowError "Error" ("File not found: " ++ filename p)], [])
  else if (chosen_size p <? 100)%nat then
    ([ShowError "Error" "Audio file is too small or empty"], [])
  else
    let first := [Configure StartButton DISABLED;
                  Configure StopButton DISABLED;
                  Configure OpenFileButton DISABLED;
                  Configure CancelButton NORMAL;
                  SetStatus "Processing audio file..." true] in
    match chosen_check p with
    | Raise e =>
        (first ++ on_transcription_error
                    ("Failed to process audio file: " ++ exn_msg e)
               ++ [Configure OpenFileButton NORMAL], [])
    | Ok (needs_splitting, size_mb) =>
        if needs_splitting
        then (first ++ [SetStatus (processing_large_file size_mb) true],
              [LargeJob (filename p)])
        else (first, [DirectJob (filename p)])
    end.

(** Error dialogs among the actions of a handler. *)
Definition error_dialogs (actions : list UiAction) : list UiAction :=
  filter is_error_dialog actions.

(** All four buttons enabled, for examples. *)
Definition all_normal : Widgets :=
  {| cancel_button := NORMAL; start_button := NORMAL;
     stop_button := NORMAL; open_file_button := NORMAL |}.

End UiState.

(* ================================================================== *)
(** * A world where things fail, for examples *)
(* ================================================================== *)

Module DemoFaults.
Import PyStr Py Env Base PyObj MainWindow.

(** The exception of a refused request. *)
Definition refused : exn :=
  {| exn_class := "APIConnectionError"; exn_msg := "Connection error." |}.

(** The exception of a failed split. *)
Definition undecodable : exn :=
  {| exn_class := "Exception"; exn_msg := "Could not decode audio" |}.

(** A world without state where the API refuses the requests picked by
    [fails], cancel is pressed during those picked by [cancel_at], and
    splitting raises for the file ["broken.wav"] and yields two chunks
    for any other. *)
Definition studio (fails cancel_at : string -> bool) : External :=
  {| World := unit;
     api_create := fun _ path w =>
       ({| api_response := if fails path then Raise refused
                           else Ok (" " ++ path ++ " ")%string;
           cancel_pressed := cancel_at path |}, w);
     split_audio_file := fun path w =>
       if (path =? "broken.wav")%string
       then ((["Loading audio"], Raise undecodable), w)
       else ((["Loading audio"; "Split 2 chunks"], Ok ["c1"; "c2"]), w);
     cleanup_temp_files := fun w => (Ok tt, w);
     combine_transcriptions := String.concat " " |}.

Definition on_c2 (path : string) : bool := (path =? "c2")%string.

Definition never (path : string) : bool := false.

(** A subclass's [transcribe] that raises on the files picked by
    [fails] and returns the path for the others. *)
Definition picky (fails cancel_at : string -> bool) (path : string)
  : @Method (studio fails cancel_at) unit string :=
  fun bw => (if fails path then Raise refused else Ok path, bw).

Arguments picky fails cancel_at path : clear implicits.

Definition start {X : Type} (fails cancel_at : string -> bool) (b : Backend X)
  : @BMachine (studio fails cancel_at) X :=
  @Build_BMachine (studio fails cancel_at) X b tt [].

Arguments start {X} fails cancel_at b.

Definition idle (fails cancel_at : string -> bool)
  : @Machine (studio fails cancel_at) unit :=
  @Build_Machine (studio fails cancel_at) unit (Base.init tt) tt [].

Arguments idle fails cancel_at : clear implicits.

Definition picky_backend (fails cancel_at : string -> bool)
  : @BackendObject (studio fails cancel_at) unit :=
  @inheriting_backend (studio fails cancel_at) unit DemoUI.EchoBackend
                      (picky fails cancel_at).

Arguments picky_backend fails cancel_at : clear implicits.

End DemoFaults.

(* ================================================================== *)
(** * ui/main_window.py: UIStatusController *)
(* ================================================================== *)

Module StatusOverlay.
Import PyStr Py.

(** [pattern in s] for strings. *)
Fixpoint contains (pattern s : string) : bool :=
  String.prefix pattern s
  || match s with
     | EmptyString => false
     | String _ rest => contains pattern rest
     end.

(** The character [c] does not occur in [s]. *)
Fixpoint lacks (c : ascii) (s : string) : bool :=
  match s with
  | EmptyString => true
  | String x rest => negb (Ascii.eqb x c) && lacks c rest
  end.

(** What a call does to the status label and to the waveform overlay. *)
Inductive OverlayAction : Type :=
| LabelText (text : string)
| OverlayShow (state text : string)
| OverlayHide.

(** [UIStatusController.update_status]; [has_label] tells whether
    [main_window.status_label] is set. *)
Definition update_status (has_label : bool) (status : string)
           (show_overlay : bool) : list OverlayAction :=
  (if has_label then [LabelText ("Status: " ++ status)] else [])
  ++ (if show_overlay then
        if contains "Recording" status then [OverlayShow "recording" status]
        else if contains "Processing" status
             then [OverlayShow "processing" status]
        else if contains "Transcribing" status
             then [OverlayShow "transcribing" status]
        else [OverlayHide]
      else [OverlayHide]).

(** The overlay after the call: the state shown, or [None] when
    hidden. *)
Definition overlay_after (actions : list OverlayAction) : option string :=
  fold_left (fun shown a => match a with
                            | OverlayShow state _ => Some state
                            | OverlayHide => None
                            | LabelText _ => shown
                            end) actions None.

End StatusOverlay.

(* ================================================================== *)
(** * hotkey_manager.py: a run of key events *)
(* ================================================================== *)

Module HotkeyRuns.
Import PyStr Py PyDict Hotkey HotkeyEvents.

(** The same key-down delivered once per time of [times], the keyboard
    being in the same state each time: the manager at the end and the
    effects of all the calls in order.  A call that raises ends the
    run. *)
Fixpoint handle_presses (debounce_ms : Q) (is_pressed : Keyboard)
         (event : KeyboardEvent) (times : list Q) (m : Manager)
  : Manager * list Effect :=
  match times with
  | [] => (m, [])
  | t :: rest =>
      match handle_keyboard_event debounce_ms is_pressed t event m with
      | (Ok _, m', effects) =>
          let '(m'', later) :=
            handle_presses debounce_ms is_pressed event rest m' in
          (m'', effects ++ later)
      | (Raise _, m', effects) => (m', effects)
      end
  end.

End HotkeyRuns.

(* ================================================================== *)
(** * hotkey_manager.py: the matcher over Unicode text *)
(* ================================================================== *)

Module HotkeyUnicode.
Import PyStr Hotkey.

(** A Python [str] is read here as its UTF-8 text.  Equality of strings
    is equality of their encodings, and ['+'] is the one byte 43, which
    occurs in no longer sequence, so [split "+"] is
    [str.split('+')].  [str.lower] over the whole of Unicode is a table
    of the interpreter (case mappings, with the rule for a final
    sigma): it is the parameter [lower]. *)
Section Lower.
Variable lower : string -> string.

(** [HotkeyManager._matches_hotkey].  [check_modifiers] is the loop over
    the modifiers, which compares them with four literals. *)
Definition matches_hotkey_with (is_pressed : Keyboard) (event : KeyEvent)
           (hotkey_string : string) : bool :=
  if (hotkey_string =? "")%string then false
  else
    let parts := split "+" (lower hotkey_string) in
    let main_key := last parts ""%string in
    let modifiers := removelast parts in
    if negb (lower (name event) =? main_key)%string then false
    else if negb (check_modifiers is_pressed modifiers) then false
    else if negb (mem "ctrl" modifiers) && is_pressed "ctrl"%string then false
    else if negb (mem "alt" modifiers) && is_pressed "alt"%string then false
    else if negb (mem "shift" modifiers) && is_pressed "shift"%string
         then false
    else if negb (mem "win" modifiers) && is_pressed "win"%string then false
    else true.

(** The tokens of the specification once it is lower-cased, as the
    code splits it. *)
Definition lowered_main_key (spec : string) : string :=
  last (split "+" (lower spec)) ""%string.

Definition lowered_modifiers (spec : string) : list string :=
  removelast (split "+" (lower spec)).

(** A modifier class is required when it is among the lower-cased
    tokens before the final one. *)
Definition spec_requires_with (spec : string) (m : string) : bool :=
  mem m (map lower (spec_modifiers spec)).

(** Lower-casing a text token by token: no character becomes or stops
    being a plus sign, and the plus sign, which has no case, cuts off
    the context the rule for a final sigma looks at. *)
Definition lowers_tokenwise : Prop :=
  forall s, split "+" (lower s) = map lower (split "+" s).

End Lower.

(** An instance of [lower] that goes beyond the 7-bit range: besides
    'A'..'Z' it folds the capitals U+00C0..U+00DE other than the
    multiplication sign, which UTF-8 writes as byte 195 followed by
    128..158.  [folds_latin1 c1 c2] tells whether the two bytes are
    such a capital. *)
Definition folds_latin1 (c1 c2 : ascii) : bool :=
  let n2 := nat_of_ascii c2 in
  (nat_of_ascii c1 =? 195)%nat && (128 <=? n2)%nat
  && (n2 <=? 158)%nat && negb (n2 =? 151)%nat.

Fixpoint lower_latin1 (s : string) : string :=
  match s with
  | EmptyString => EmptyString
  | String c1 tail =>
      match tail with
      | String c2 rest =>
          if folds_latin1 c1 c2
          then String c1 (String (ascii_of_nat (nat_of_ascii c2 + 32))
                                 (lower_latin1 rest))
          else String (lower_ascii c1) (lower_latin1 tail)
      | EmptyString => String (lower_ascii c1) EmptyString
      end
  end.

(** U+00C9 and U+00E9, E with acute accent, capital and small. *)
Definition E_acute : string :=
  String (ascii_of_nat 195) (String (ascii_of_nat 137) EmptyString).

Definition e_acute : string :=
  String (ascii_of_nat 195) (String (ascii_of_nat 169) EmptyString).

End HotkeyUnicode.

(* ================================================================== *)
(** * Facts about the hotkey matcher and the debounce guard *)
(* ================================================================== *)

Module HotkeyFacts.
Import PyStr Hotkey.
Local Open Scope Q_scope.

Lemma lower_ascii_plus (c : ascii) :
  Ascii.eqb (lower_ascii c) "+" = Ascii.eqb c "+".
Proof.
  destruct c as [[] [] [] [] [] [] [] []]; reflexivity.
Qed.

Lemma split_nonempty (sep : ascii) (s : string) : split sep s <> [].
Proof.
  destruct s as [|c rest]; simpl; [discriminate|].
  destruct (Ascii.eqb c sep); [discriminate|].
  destruct (split sep rest); discriminate.
Qed.

(** Lower-casing commutes with splitting on ['+']: no letter becomes a
    plus sign and the plus sign has no case. *)
Lemma split_lower (s : string) :
  split "+" (lower s) = map lower (split "+" s).
Proof.
  induction s as [|c rest IH]; simpl; [reflexivity|].
  rewrite lower_ascii_plus, IH.
  destruct (Ascii.eqb c "+"); [reflexivity|].
  destruct (split "+" rest); reflexivity.
Qed.

Lemma last_map_lower (l : list string) :
  last (map lower l) "" = lower (last l "").
Proof.
  induction l as [|x [|y l] IH]; simpl in *; auto.
Qed.

Lemma removelast_map_lower (l : list string) :
  removelast (map lower l) = map lower (removelast l).
Proof.
  induction l as [|x [|y l] IH]; simpl in *; auto.
  now rewrite IH.
Qed.

(** The modifier loop falls through exactly when every listed modifier
    class is held. *)
Lemma check_modifiers_implb (kb : Keyboard) (ms : list string) :
  check_modifiers kb ms =
    implb (mem "ctrl" ms) (kb "ctrl") && implb (mem "alt" ms) (kb "alt")
    && implb (mem "shift" ms) (kb "shift") && implb (mem "win" ms) (kb "win").
Proof.
  induction ms as [|m rest IH]; [reflexivity|].
  unfold mem in *. cbn [existsb check_modifiers].
  rewrite !(String.eqb_sym _ m), IH. clear IH.
  generalize (existsb (String.eqb "ctrl") rest) (existsb (String.eqb "alt") rest)
             (existsb (String.eqb "shift") rest) (existsb (String.eqb "win") rest)
             (kb "ctrl") (kb "alt") (kb "shift") (kb "win").
  intros c a s w kc ka ks kw.
  destruct (String.eqb_spec m "ctrl") as [->|_];
    [destruct c, a, s, w, kc, ka, ks, kw; reflexivity|].
  destruct (String.eqb_spec m "alt") as [->|_];
    [destruct c, a, s, w, kc, ka, ks, kw; reflexivity|].
  destruct (String.eqb_spec m "shift") as [->|_];
    [destruct c, a, s, w, kc, ka, ks, kw; reflexivity|].
  destruct (String.eqb_spec m "win") as [->|_];
    [destruct c, a, s, w, kc, ka, ks, kw; reflexivity|].
  destruct c, a, s, w, kc, ka, ks, kw; reflexivity.
Qed.

(** The matcher as one boolean formula over the tokens of the
    lower-cased specification. *)
Lemma matches_hotkey_formula (kb : Keyboard) (ev : KeyEvent) (spec : string) :
  matches_hotkey kb ev spec =
    negb (spec =? "")
    && (lower (name ev) =? lower (spec_main_key spec))
    && forallb (fun m => Bool.eqb (kb m) (spec_requires spec m))
               modifier_classes.
Proof.
  unfold matches_hotkey, spec_requires, spec_main_key, spec_modifiers.
  destruct (spec =? ""); [reflexivity|].
  cbv zeta. rewrite split_lower, last_map_lower, removelast_map_lower.
  destruct (lower (name ev) =? lower (last (split "+" spec) "")); [|reflexivity].
  rewrite check_modifiers_implb. simpl forallb.
  destruct (mem "ctrl" _), (mem "alt" _), (mem "shift" _), (mem "win" _),
    (kb "ctrl"), (kb "alt"), (kb "shift"), (kb "win"); reflexivity.
Qed.

(** ** Debounce *)

Lemma Qgtb_true (x y : Q) : Qgtb x y = true <-> y < x.
Proof.
  unfold Qgtb. rewrite negb_true_iff, <- not_true_iff_false, Qle_bool_iff.
  split; [apply Qnot_le_lt | apply Qlt_not_le].
Qed.

Lemma Qgtb_false (x y : Q) : Qgtb x y = false <-> x <= y.
Proof.
  unfold Qgtb. rewrite negb_false_iff. apply Qle_bool_iff.
Qed.

(** C7, as worded, fails on the boundary.  With a 500 ms interval, a
    last trigger at 1000 s and a new one at 1000.5 s, the elapsed time is
    not below the interval, yet the guard rejects the trigger and keeps
    the stored timestamp. *)
Lemma debounce_boundary_rejected :
  1000 < 2001 # 2 /\
  ~ ((2001 # 2) - last_trigger_time triggered_at_1000 < 500 / 1000) /\
  should_trigger_record_toggle 500 (2001 # 2) triggered_at_1000
    = (false, triggered_at_1000).
Proof.
  split; [reflexivity|]. split; [|reflexivity].
  intros H. apply Qlt_not_le in H. apply H. discriminate.
Qed.

(** C7, amended.  With [t] the stored last-trigger time, a trigger at
    [t'] is rejected, the stored time unchanged, when [t' - t] is at
    most the debounce interval, and accepted, the stored time becoming
    [t'], when [t' - t] is strictly greater.  Hence of two triggers, the
    first of which is accepted, the pair counts once when the second
    comes within the interval and twice when it comes more than the
    interval later. *)
Theorem debounce_guard (debounce_ms t' : Q) (self : HotkeyManager) :
  let t := last_trigger_time self in
  let window := debounce_ms / 1000 in
  (t' - t <= window ->
     should_trigger_record_toggle debounce_ms t' self = (false, self)) /\
  (window < t' - t ->
     should_trigger_record_toggle debounce_ms t' self
       = (true, set_last_trigger_time t' self)) /\
  (forall t'', window < t' - t ->
     (t'' - t' <= window -> count_triggers debounce_ms [t'; t''] self = 1%nat) /\
     (window < t'' - t' -> count_triggers debounce_ms [t'; t''] self = 2%nat)).
Proof.
  cbv zeta.
  assert (Hrej : forall now s, now - last_trigger_time s <= debounce_ms / 1000 ->
            should_trigger_record_toggle debounce_ms now s = (false, s)).
  { intros now s H. unfold should_trigger_record_toggle.
    apply Qgtb_false in H. now rewrite H. }
  assert (Hacc : forall now s, debounce_ms / 1000 < now - last_trigger_time s ->
            should_trigger_record_toggle debounce_ms now s
              = (true, set_last_trigger_time now s)).
  { intros now s H. unfold should_trigger_record_toggle.
    apply Qgtb_true in H. now rewrite H. }
  split; [apply Hrej|]. split; [apply Hacc|].
  intros t'' H1. cbn [count_triggers]. rewrite (Hacc _ _ H1).
  split; intros H2.
  - rewrite Hrej; [reflexivity | exact H2].
  - rewrite Hacc; [reflexivity | exact H2].
Qed.

(** An instance: 500 ms interval, last trigger at 1000 s.  A trigger at
    1001 s is accepted, and a following one at 1001.2 s is swallowed. *)
Lemma debounce_guard_witness :
  should_trigger_record_toggle 500 1001 triggered_at_1000
    = (true, set_last_trigger_time 1001 triggered_at_1000) /\
  count_triggers 500 [1001; 5006 # 5] triggered_at_1000 = 1%nat.
Proof.
  split.
  - apply (proj1 (proj2 (debounce_guard 500 1001 triggered_at_1000))).
    reflexivity.
  - apply (proj2 (proj2 (debounce_guard 500 1001 triggered_at_1000)) (5006 # 5)).
    + reflexivity.
    + discriminate.
Defined.

End HotkeyFacts.

(* ================================================================== *)
(** * Facts about the backends *)
(* ================================================================== *)

Module BackendFacts.
Import PyStr Py Env Base.
Local Open Scope py_scope.

Lemma requested_app (xs ys : list Call) :
  requested (xs ++ ys) = requested xs ++ requested ys.
Proof. apply flat_map_app. Qed.


Lemma requested_transcribed_ok (chunks ts : list string) :
  length ts = length chunks ->
  requested (map transcribed_ok (List.combine chunks ts)) = chunks.
Proof.
  revert ts. induction chunks as [|c chunks IH]; intros [|t ts] Hlen;
    simpl in *; try discriminate; [reflexivity|].
  unfold requested in *. simpl. f_equal. apply IH. lia.
Qed.

Section DefaultLoop.
Context {E : External} {X : Type}.
Variable transcribe : string -> Method X string.

Lemma default_loop_cons (chunk_file : string) (rest acc : list string)
      (s : BMachine X) :
  default_loop transcribe (chunk_file :: rest) acc s =
    if should_cancel (self s) then (Raise cancelled, s)
    else match invoke transcribe chunk_file s with
         | (Ok t, s') => default_loop transcribe rest (acc ++ [t]) s'
         | (Raise e, s') => (Raise e, s')
         end.
Proof.
  cbn [default_loop]. unfold bind, gets, raise.
  destruct (should_cancel (self s)); reflexivity.
Qed.

(** Running the loop over [l1 ++ l2] is running it over [l1] and, when
    that completes, over [l2] from where it stopped. *)
Lemma default_loop_app (l1 l2 acc : list string) (s : BMachine X) :
  default_loop transcribe (l1 ++ l2) acc s =
    match default_loop transcribe l1 acc s with
    | (Ok acc', s') => default_loop transcribe l2 acc' s'
    | (Raise e, s') => (Raise e, s')
    end.
Proof.
  revert acc s. induction l1 as [|c l1 IH]; intros acc s.
  - reflexivity.
  - rewrite <- app_comm_cons, !default_loop_cons.
    destruct (should_cancel (self s)); [reflexivity|].
    destruct (invoke transcribe c s) as [[t|e] s']; [apply IH | reflexivity].
Qed.

(** A loop that completes has called [transcribe] once per chunk, in
    order, and has appended the texts in the same order. *)
Lemma default_loop_ok (chunks acc ts : list string) (s s' : BMachine X) :
  default_loop transcribe chunks acc s = (Ok ts, s') ->
  exists new,
    ts = acc ++ new /\ length new = length chunks /\
    calls s' = calls s ++ map transcribed_ok (List.combine chunks new).
Proof.
  revert acc s. induction chunks as [|c chunks IH]; intros acc s H.
  - inversion H; subst. exists []. now rewrite !app_nil_r.
  - rewrite default_loop_cons in H.
    destruct (should_cancel (self s)); [discriminate|].
    destruct (invoke transcribe c s) as [[t|e] s1] eqn:Hinv; [|discriminate].
    apply IH in H. destruct H as (new & -> & Hlen & Hcalls).
    exists (t :: new). rewrite <- app_assoc. split; [reflexivity|].
    split; [simpl; lia|].
    rewrite Hcalls. unfold invoke in Hinv.
    destruct (transcribe c (self s, world s)) as [r [b w]].
    inversion Hinv; subst. simpl. now rewrite <- app_assoc.
Qed.

End DefaultLoop.

Lemma requested_answered_ok (api_model : string) (chunks rs : list string) :
  length rs = length chunks ->
  requested (map (answered_ok api_model) (List.combine chunks rs)) = chunks.
Proof.
  revert rs. induction chunks as [|c chunks IH]; intros [|r rs] Hlen;
    simpl in *; try discriminate; [reflexivity|].
  unfold requested in *. simpl. f_equal. apply IH. lia.
Qed.

Section OpenAILoop.
Import OpenAI.
Context {E : External}.

(** One request: it is recorded with the current [is_transcribing], and
    touches no field but [should_cancel]. *)
Lemma request_effect (api_model path : string) (s : BMachine Fields) :
  let out := fst (api_create api_model path (world s)) in
  let s' := snd (request api_model path s) in
  fst (request api_model path s) = api_response out /\
  calls s' = calls s ++ [ApiRequest api_model path (is_transcribing (self s))
                                    (api_response out)] /\
  is_transcribing (self s') = is_transcribing (self s) /\
  sub (self s') = sub (self s) /\
  should_cancel (self s') = cancel_pressed out || should_cancel (self s).
Proof.
  unfold request. destruct (api_create api_model path (world s)) as [out w].
  simpl. repeat split; destruct (cancel_pressed out); reflexivity.
Qed.

Lemma chunk_loop_cons (api_model chunk_file : string)
      (rest acc : list string) (s : BMachine Fields) :
  chunk_loop api_model (chunk_file :: rest) acc s =
    if should_cancel (self s) then (Raise cancelled, s)
    else match request api_model chunk_file s with
         | (Ok r, s') => chunk_loop api_model rest (acc ++ [strip r]) s'
         | (Raise e, s') => (Raise e, s')
         end.
Proof.
  cbn [chunk_loop]. unfold bind, gets, raise.
  destruct (should_cancel (self s)); reflexivity.
Qed.

Lemma chunk_loop_app (api_model : string) (l1 l2 acc : list string)
      (s : BMachine Fields) :
  chunk_loop api_model (l1 ++ l2) acc s =
    match chunk_loop api_model l1 acc s with
    | (Ok acc', s') => chunk_loop api_model l2 acc' s'
    | (Raise e, s') => (Raise e, s')
    end.
Proof.
  revert acc s. induction l1 as [|c l1 IH]; intros acc s.
  - reflexivity.
  - rewrite <- app_comm_cons, !chunk_loop_cons.
    destruct (should_cancel (self s)); [reflexivity|].
    destruct (request api_model c s) as [[r|e] s']; [apply IH | reflexivity].
Qed.

(** Whatever the loop does, [is_transcribing] and the subclass fields
    are as they were, and every request it made saw the flag it started
    with. *)
Lemma chunk_loop_frame (api_model : string) (chunks acc : list string)
      (s : BMachine Fields) :
  let s' := snd (chunk_loop api_model chunks acc s) in
  is_transcribing (self s') = is_transcribing (self s) /\
  sub (self s') = sub (self s) /\
  exists new, calls s' = calls s ++ new /\
              Forall (eq (is_transcribing (self s))) (busy_flags new).
Proof.
  revert acc s. induction chunks as [|c chunks IH]; intros acc s; cbv zeta.
  - simpl. repeat split. exists []. now rewrite app_nil_r.
  - rewrite chunk_loop_cons.
    destruct (should_cancel (self s)).
    { simpl. repeat split. exists []. now rewrite app_nil_r. }
    destruct (request_effect api_model c s) as (Hr & Hc & Ht & Hs & _).
    destruct (request api_model c s) as [[r|e] s1]; simpl in *.
    + destruct (IH (acc ++ [strip r]) s1) as (Ht' & Hs' & new & Hc' & Hall).
      rewrite Ht', Hs', Ht, Hs. repeat split.
      exists (ApiRequest api_model c (is_transcribing (self s))
                         (api_response (fst (api_create api_model c (world s))))
                :: new).
      rewrite Hc', Hc, <- app_assoc. split; [reflexivity|].
      simpl. constructor; [reflexivity|]. now rewrite <- Ht.
    + repeat split; auto. eexists. split; [exact Hc|].
      simpl. constructor; [reflexivity | constructor].
Qed.

(** A loop that completes while [is_transcribing] is set has sent one
    request per chunk, in order, and has appended the stripped
    responses in the same order. *)
Lemma chunk_loop_ok (api_model : string) (chunks acc ts : list string)
      (s s' : BMachine Fields) :
  is_transcribing (self s) = true ->
  chunk_loop api_model chunks acc s = (Ok ts, s') ->
  exists rs,
    ts = acc ++ map strip rs /\ length rs = length chunks /\
    calls s' = calls s ++ map (answered_ok api_model) (List.combine chunks rs).
Proof.
  revert acc s. induction chunks as [|c chunks IH]; intros acc s Hbusy H.
  - inversion H; subst. exists []. simpl. now rewrite !app_nil_r.
  - rewrite chunk_loop_cons in H.
    destruct (should_cancel (self s)); [discriminate|].
    destruct (request_effect api_model c s) as (Hr & Hc & Ht & _).
    destruct (request api_model c s) as [[r|e] s1]; [|discriminate].
    simpl in *. apply IH in H; [|congruence].
    destruct H as (rs & -> & Hlen & Hcalls).
    exists (r :: rs). simpl. rewrite <- app_assoc. split; [reflexivity|].
    split; [lia|].
    rewrite Hcalls, Hc, <- app_assoc, Hbusy, <- Hr. reflexivity.
Qed.

(** [transcribe_chunks] on an available backend, with the [try] and
    [finally] blocks unfolded. *)
Lemma transcribe_chunks_available (chunks : list string)
      (s : BMachine Fields) :
  is_available (self s) = true ->
  OpenAI.transcribe_chunks chunks s =
    match chunk_loop (get_api_model_name (self s)) chunks [] (entered s) with
    | (Ok ts, s1) =>
        (Ok (combine_transcriptions ts),
         with_self (set_is_transcribing false) (record_call (Combine ts) s1))
    | (Raise e, s1) => (Raise e, with_self (set_is_transcribing false) s1)
    end.
Proof.
  intros Hav.
  unfold OpenAI.transcribe_chunks, try_finally, log_and_reraise, try_except,
    transcribe_chunks_body, bind, modify, gets, raise, call_combine, entered.
  rewrite Hav. cbn [negb]. cbv beta iota.
  change (get_api_model_name
            (self (with_self reset_cancel_flag
                             (with_self (set_is_transcribing true) s))))
    with (get_api_model_name (self s)).
  match goal with
  | |- context [chunk_loop ?m ?c ?a ?st] =>
      destruct (chunk_loop m c a st) as [[ts|e] s1]
  end; reflexivity.
Qed.

Lemma transcribe_chunks_unavailable (chunks : list string)
      (s : BMachine Fields) :
  is_available (self s) = false ->
  OpenAI.transcribe_chunks chunks s = (Raise unavailable, s).
Proof.
  intros Hav. unfold OpenAI.transcribe_chunks, bind, gets.
  now rewrite Hav.
Qed.

End OpenAILoop.

Section ChunkedTranscription.
Import OpenAI.
Context {E : External}.

Lemma skipn_cons_of_lt (chunks : list string) (i : nat) :
  i < length chunks ->
  exists c rest, skipn i chunks = c :: rest.
Proof.
  intros Hi. destruct (skipn i chunks) as [|c rest] eqn:Hsk.
  - apply (f_equal (@length string)) in Hsk.
    rewrite length_skipn in Hsk. simpl in Hsk. lia.
  - eauto.
Qed.

(** C5.  In the default [transcribe_chunks] and in the OpenAI one, when
    the loop reaches the start of iteration [i] (the first [i] chunks
    have been transcribed) and [should_cancel] is set there, the call
    raises the cancelled exception from exactly that state: the files
    submitted for transcription during the call are the first [i]
    chunks, so neither chunk [i] nor any later chunk is submitted. *)
Theorem cancel_observed_at_iteration :
  (forall (X : Type) (transcribe : string -> Method X string)
          (chunk_files : list string) (i : nat) (acc : list string)
          (s s_i : BMachine X),
      i < length chunk_files ->
      default_loop transcribe (firstn i chunk_files) [] s = (Ok acc, s_i) ->
      should_cancel (self s_i) = true ->
      Base.transcribe_chunks transcribe chunk_files s = (Raise cancelled, s_i) /\
      requested (calls s_i) = requested (calls s) ++ firstn i chunk_files)
  /\
  (forall (chunk_files : list string) (i : nat) (acc : list string)
          (s s_i : BMachine Fields),
      is_available (self s) = true ->
      i < length chunk_files ->
      chunk_loop (get_api_model_name (self s)) (firstn i chunk_files) []
                 (entered s) = (Ok acc, s_i) ->
      should_cancel (self s_i) = true ->
      OpenAI.transcribe_chunks chunk_files s
        = (Raise cancelled, with_self (set_is_transcribing false) s_i) /\
      requested (calls (snd (OpenAI.transcribe_chunks chunk_files s)))
        = requested (calls s) ++ firstn i chunk_files).
Proof.
  split.
  - intros X transcribe chunks i acc s s_i Hi Hloop Hflag.
    destruct (skipn_cons_of_lt chunks Hi) as (c & rest & Hsk).
    split.
    + unfold Base.transcribe_chunks, bind.
      rewrite <- (firstn_skipn i chunks) at 1.
      rewrite default_loop_app, Hloop, Hsk, default_loop_cons, Hflag.
      reflexivity.
    + apply default_loop_ok in Hloop.
      destruct Hloop as (new & _ & Hlen & Hcalls).
      rewrite Hcalls, requested_app, requested_transcribed_ok; auto.
  - intros chunks i acc s s_i Hav Hi Hloop Hflag.
    destruct (skipn_cons_of_lt chunks Hi) as (c & rest & Hsk).
    assert (Hcall : OpenAI.transcribe_chunks chunks s
                    = (Raise cancelled, with_self (set_is_transcribing false) s_i)).
    { rewrite (transcribe_chunks_available chunks s Hav).
      rewrite <- (firstn_skipn i chunks) at 1.
      rewrite chunk_loop_app, Hloop, Hsk, chunk_loop_cons, Hflag.
      reflexivity. }
    split; [exact Hcall|].
    rewrite Hcall. simpl.
    apply chunk_loop_ok in Hloop; [|reflexivity].
    destruct Hloop as (rs & _ & Hlen & Hcalls).
    rewrite Hcalls, requested_app, requested_answered_ok; auto.
Qed.


End ChunkedTranscription.

(** An instance of C5: three chunks, cancel pressed while the second is
    being transcribed.  Both loops stop at the third iteration. *)
Lemma cancel_observed_at_iteration_witness :
  (let s := Demo.start Demo.during_c2 (Base.init tt) in
   fst (Base.transcribe_chunks (Demo.echo Demo.during_c2) Demo.three_chunks s)
     = Raise cancelled /\
   requested
     (calls (snd (Base.transcribe_chunks (Demo.echo Demo.during_c2)
                                         Demo.three_chunks s)))
     = ["c1"; "c2"]) /\
  (let s := Demo.start Demo.during_c2 Demo.ready in
   fst (OpenAI.transcribe_chunks Demo.three_chunks s) = Raise cancelled /\
   requested (calls (snd (OpenAI.transcribe_chunks Demo.three_chunks s)))
     = ["c1"; "c2"]).
Proof.
  split; cbv zeta.
  - pose (s := Demo.start Demo.during_c2 (Base.init tt)).
    pose (run := default_loop (Demo.echo Demo.during_c2) ["c1"; "c2"] [] s).
    destruct (proj1 (@cancel_observed_at_iteration (Demo.studio Demo.during_c2))
                unit (Demo.echo Demo.during_c2) Demo.three_chunks 2
                ["c1"; "c2"] s (snd run)) as [H1 H2].
    + simpl. lia.
    + reflexivity.
    + reflexivity.
    + fold s. rewrite H1. split; [reflexivity | exact H2].
  - pose (s := Demo.start Demo.during_c2 Demo.ready).
    pose (run := OpenAI.chunk_loop "whisper-1" ["c1"; "c2"] [] (OpenAI.entered s)).
    destruct (proj2 (@cancel_observed_at_iteration (Demo.studio Demo.during_c2))
                Demo.three_chunks 2 ["c1"; "c2"] s (snd run)) as [H1 H2].
    + reflexivity.
    + simpl. lia.
    + reflexivity.
    + reflexivity.
    + fold s. rewrite H1. split; [reflexivity | exact H2].
Defined.


Section OpenAICalls.
Import OpenAI.
Context {E : External}.

(** [transcribe] on an available backend, with the [try] and [finally]
    blocks unfolded. *)
Lemma transcribe_available (path : string) (s : BMachine Fields) :
  is_available (self s) = true ->
  OpenAI.transcribe path s =
    match request (get_api_model_name (self s)) path (entered s) with
    | (Ok r, s1) =>
        if should_cancel (self s1)
        then (Raise cancelled, with_self (set_is_transcribing false) s1)
        else (Ok (strip r), with_self (set_is_transcribing false) s1)
    | (Raise e, s1) => (Raise e, with_self (set_is_transcribing false) s1)
    end.
Proof.
  intros Hav.
  unfold OpenAI.transcribe, try_finally, log_and_reraise, try_except,
    transcribe_body, bind, modify, gets, raise, ret, entered.
  rewrite Hav. cbn [negb]. cbv beta iota.
  change (get_api_model_name
            (self (with_self reset_cancel_flag
                             (with_self (set_is_transcribing true) s))))
    with (get_api_model_name (self s)).
  match goal with
  | |- context [request ?m ?c ?st] =>
      destruct (request m c st) as [[r|e] s1]
  end; [|reflexivity].
  destruct (should_cancel (self s1)); reflexivity.
Qed.

Lemma transcribe_unavailable (path : string) (s : BMachine Fields) :
  is_available (self s) = false ->
  OpenAI.transcribe path s = (Raise unavailable, s).
Proof.
  intros Hav. unfold OpenAI.transcribe, bind, gets. now rewrite Hav.
Qed.

(** C8.  Let [sent] be the underlying request as [transcribe] issues
    it.  On an unavailable backend [transcribe] raises and leaves the
    state, the record of calls included, as it was: no request is made.
    On an available backend it raises the request's exception when the
    request raises, raises the cancelled exception when the request
    returns and [should_cancel] is found set afterwards, and returns the
    stripped response otherwise.  So it raises exactly in those three
    cases, and the cancelled exception differs from the one raised for
    an unavailable backend. *)
Theorem transcribe_raises_exactly (path : string) (s : BMachine Fields) :
  let sent := request (get_api_model_name (self s)) path (entered s) in
  let found_cancelled := should_cancel (self (snd sent)) in
  (is_available (self s) = false ->
     OpenAI.transcribe path s = (Raise unavailable, s)) /\
  (is_available (self s) = true ->
     fst (OpenAI.transcribe path s) =
       match fst sent with
       | Raise e => Raise e
       | Ok response =>
           if found_cancelled then Raise cancelled else Ok (strip response)
       end) /\
  (is_raise (fst (OpenAI.transcribe path s)) = true <->
     is_available (self s) = false \/
     (is_available (self s) = true /\ is_raise (fst sent) = true) \/
     (is_available (self s) = true /\ is_raise (fst sent) = false /\
      found_cancelled = true)) /\
  cancelled <> unavailable.
Proof.
  cbv zeta.
  assert (Hav1 : is_available (self s) = true ->
     fst (OpenAI.transcribe path s) =
       match fst (request (get_api_model_name (self s)) path (entered s)) with
       | Raise e => Raise e
       | Ok response =>
           if should_cancel
                (self (snd (request (get_api_model_name (self s)) path
                                    (entered s))))
           then Raise cancelled else Ok (strip response)
       end).
  { intros Hav. rewrite (transcribe_available path s Hav).
    destruct (request _ path (entered s)) as [[r|e] s1]; simpl; [|reflexivity].
    destruct (should_cancel (self s1)); reflexivity. }
  split; [apply transcribe_unavailable|]. split; [exact Hav1|].
  split; [|discriminate].
  destruct (is_available (self s)) eqn:Hav.
  - rewrite (Hav1 eq_refl).
    destruct (request _ path (entered s)) as [[r|e] s1]; simpl.
    + destruct (should_cancel (self s1)); simpl; split; intros H;
        try discriminate; auto.
      destruct H as [H|[[_ H]|(_ & _ & H)]]; discriminate.
    + split; auto.
  - rewrite (transcribe_unavailable path s Hav). simpl. split; auto.
Qed.

(** After a request issued by [transcribe], [should_cancel] is set
    exactly when cancel was pressed while the request was in flight:
    the flag is cleared just before the request. *)
Lemma found_cancelled_iff_pressed (path : string) (s : BMachine Fields) :
  let model := get_api_model_name (self s) in
  should_cancel (self (snd (request model path (entered s))))
    = cancel_pressed (fst (api_create model path (world s))).
Proof.
  cbv zeta.
  destruct (request_effect (get_api_model_name (self s)) path (entered s))
    as (_ & _ & _ & _ & H).
  rewrite H. simpl. apply orb_false_r.
Qed.






End OpenAICalls.

(** An instance of C8: a backend built without a key raises without a
    request; one built with a key returns the stripped response. *)
Lemma transcribe_raises_exactly_witness :
  OpenAI.transcribe "a.wav" (Demo.start Demo.never Demo.keyless)
    = (Raise OpenAI.unavailable, Demo.start Demo.never Demo.keyless) /\
  fst (OpenAI.transcribe "a.wav" (Demo.start Demo.never Demo.ready))
    = Ok "a.wav".
Proof.
  split.
  - apply (proj1 (@transcribe_raises_exactly (Demo.studio Demo.never) "a.wav"
                    (Demo.start Demo.never Demo.keyless))).
    reflexivity.
  - apply (proj1 (proj2 (@transcribe_raises_exactly (Demo.studio Demo.never)
                           "a.wav" (Demo.start Demo.never Demo.ready)))).
    reflexivity.
Defined.


End BackendFacts.

(* ================================================================== *)
(** * Facts about the transcription workflow *)
(* ================================================================== *)

Module WorkflowFacts.
Import PyStr Py Env Base PyObj MainWindow BackendFacts.
Local Open Scope py_scope.

(** ** Attribute lookup *)

Lemma class_has_base (n attr : string) (own : list string)
      (bases : list pyclass) (b : pyclass) :
  In b bases -> class_has b attr = true ->
  class_has (Class n own bases) attr = true.
Proof.
  intros Hin Hb. cbn [class_has]. apply orb_true_iff. right.
  induction bases as [|b' bases IH]; [destruct Hin|].
  apply orb_true_iff. destruct Hin as [->|Hin]; [left; exact Hb|right; auto].
Qed.

(** A name bound in a class is found in each of its subclasses. *)
Lemma class_has_subclass (d c : pyclass) (attr : string) :
  subclass d c -> class_has c attr = true -> class_has d attr = true.
Proof.
  induction 1 as [c|n own bases b c Hin _ IH]; intros Hc; [exact Hc|].
  apply class_has_base with (b := b); auto.
Qed.

Lemma hasattr_isinstance (obj : instance) (c : pyclass) (attr : string) :
  isinstance obj c -> class_has c attr = true -> hasattr obj attr = true.
Proof.
  intros Hsub Hc. unfold hasattr. apply orb_true_iff. right.
  now apply class_has_subclass with (c := c).
Qed.

(** ** Counting cleanups *)

Lemma cleanups_app (xs ys : list Event) :
  cleanups (xs ++ ys) = cleanups xs + cleanups ys.
Proof. unfold cleanups. now rewrite filter_app, length_app. Qed.

Lemma cleanups_backend_calls (cs : list Call) :
  cleanups (map BackendCall cs) = 0.
Proof. induction cs; auto. Qed.

Lemma cleanups_status_updates (messages : list string) :
  cleanups (map (fun m => After (UpdateStatus m)) messages) = 0.
Proof. induction messages; auto. Qed.

Section Workflow.
Context {E : External} {X : Type}.

Lemma appends_ret {A : Type} (a : A) :
  appends_cleanups 0 (ret a : M (Machine X) A).
Proof. intros s. exists []. simpl. now rewrite app_nil_r. Qed.

Lemma appends_raise {A : Type} (e : exn) :
  appends_cleanups 0 (raise e : M (Machine X) A).
Proof. intros s. exists []. simpl. now rewrite app_nil_r. Qed.

Lemma appends_after (cb : Callback) : appends_cleanups 0 (after (X := X) cb).
Proof. intros s. exists [After cb]. auto. Qed.

Lemma appends_now (cb : Callback) : appends_cleanups 0 (now (X := X) cb).
Proof. intros s. exists [Now cb]. auto. Qed.

Lemma appends_on_backend {A : Type} (m : M (BMachine X) A) :
  appends_cleanups 0 (on_backend m).
Proof.
  intros s. unfold on_backend.
  destruct (m _) as [r b]. simpl.
  eexists. split; [reflexivity | apply cleanups_backend_calls].
Qed.

Lemma appends_split_audio (audio_file : string) :
  appends_cleanups 0 (split_audio (X := X) audio_file).
Proof.
  intros s. unfold split_audio.
  destruct (split_audio_file audio_file (outside s)) as [[messages r] w].
  simpl. eexists. split; [reflexivity|].
  apply (cleanups_status_updates messages).
Qed.

Lemma appends_cleanup : appends_cleanups 1 (cleanup (X := X)).
Proof.
  intros s. unfold cleanup.
  destruct (cleanup_temp_files (outside s)) as [r w]. simpl.
  exists [CleanupTempFiles]. auto.
Qed.

Lemma appends_bind {A B : Type} (m : M (Machine X) A) (k : A -> M (Machine X) B) :
  appends_cleanups 0 m -> (forall a, appends_cleanups 0 (k a)) ->
  appends_cleanups 0 (bind m k).
Proof.
  intros Hm Hk s. unfold bind.
  destruct (Hm s) as (new & Ht & Hc).
  destruct (m s) as [[a|e] s1]; simpl in *.
  - destruct (Hk a s1) as (new' & Ht' & Hc').
    exists (new ++ new'). split; [|rewrite cleanups_app; lia].
    now rewrite Ht', Ht, <- app_assoc.
  - exists new. auto.
Qed.

Lemma appends_try_except {A : Type} (j : nat) (body : M (Machine X) A)
      (handler : exn -> M (Machine X) A) :
  appends_cleanups j body -> (forall e, appends_cleanups 0 (handler e)) ->
  appends_cleanups j (try_except body handler).
Proof.
  intros Hb Hh s. unfold try_except.
  destruct (Hb s) as (new & Ht & Hc).
  destruct (body s) as [[a|e] s1]; simpl in *.
  - exists new. auto.
  - destruct (Hh e s1) as (new' & Ht' & Hc').
    exists (new ++ new'). split; [|rewrite cleanups_app; lia].
    now rewrite Ht', Ht, <- app_assoc.
Qed.

Lemma appends_try_finally {A : Type} (j k : nat) (body : M (Machine X) A)
      (final : M (Machine X) unit) :
  appends_cleanups j body -> appends_cleanups k final ->
  appends_cleanups (j + k) (try_finally body final).
Proof.
  intros Hb Hf s. unfold try_finally.
  destruct (Hb s) as (new & Ht & Hc).
  destruct (body s) as [r s1]; simpl in *.
  destruct (Hf s1) as (new' & Ht' & Hc').
  assert (Hgoal : exists new0,
             trace (snd (final s1)) = trace s ++ new0 /\ cleanups new0 = j + k).
  { exists (new ++ new'). split; [|rewrite cleanups_app; lia].
    now rewrite Ht', Ht, <- app_assoc. }
  destruct (final s1) as [[u|e] s2]; exact Hgoal.
Qed.

Lemma appends_fallback_loop (be : BackendObject X) (total i : nat)
      (chunks acc : list string) :
  appends_cleanups 0 (fallback_loop be total i chunks acc).
Proof.
  revert i acc. induction chunks as [|c chunks IH]; intros i acc.
  - apply appends_ret.
  - cbn [fallback_loop]. apply appends_bind; [apply appends_after|].
    intros _. apply appends_bind; [apply appends_on_backend|].
    intros t. apply IH.
Qed.

Lemma appends_transcribe_step (be : BackendObject X) (chunks : list string) :
  appends_cleanups 0 (transcribe_step be chunks).
Proof.
  unfold transcribe_step, batch_path, fallback_path.
  destruct (hasattr (py_object be) "transcribe_chunks").
  - apply appends_bind; [apply appends_after|].
    intros _. apply appends_on_backend.
  - apply appends_bind; [apply appends_fallback_loop|].
    intros ts. apply appends_bind; [apply appends_after|].
    intros _. apply appends_ret.
Qed.

Lemma appends_workflow (step : list string -> M (Machine X) string)
      (audio_file : string) :
  (forall chunks, appends_cleanups 0 (step chunks)) ->
  appends_cleanups 1 (workflow step audio_file).
Proof.
  intros Hstep. unfold workflow.
  apply (@appends_try_finally unit 0 1).
  - apply appends_try_except; [|intros e; apply appends_after].
    unfold workflow_body.
    apply appends_bind; [apply appends_after|]. intros _.
    apply appends_bind; [apply appends_split_audio|]. intros [|c chunks].
    + apply appends_raise.
    + apply appends_bind; [apply Hstep|]. intros t. apply appends_after.
  - apply appends_try_except; [apply appends_cleanup|].
    intros e. apply appends_ret.
Qed.

(** The workflow itself never raises: the handler catches what the body
    raises, and a failing cleanup is only logged. *)
Lemma workflow_returns (step : list string -> M (Machine X) string)
      (audio_file : string) (s : Machine X) :
  fst (workflow step audio_file s) = Ok tt.
Proof.
  unfold workflow, try_finally, try_except.
  destruct (workflow_body step audio_file s) as [[[]|e] s1].
  - destruct (cleanup s1) as [[[]|e] s2]; reflexivity.
  - unfold after at 1, modify.
    destruct (cleanup _) as [[[]|e'] s2]; reflexivity.
Qed.

(** C3.  Every run of the large-file workflow, from a recording or from
    an opened file, returns, and what it appends to the trace holds
    exactly one invocation of [cleanup_temp_files], whatever the
    splitter, the backend and the cleanup itself do. *)
Theorem cleanup_exactly_once (be : BackendObject X)
        (audio_file recorded_audio_file : string) (s : Machine X) :
  (fst (transcribe_large_audio_from_file be audio_file s) = Ok tt /\
   exists new,
     trace (snd (transcribe_large_audio_from_file be audio_file s))
       = trace s ++ new /\ cleanups new = 1) /\
  (fst (transcribe_large_audio recorded_audio_file be s) = Ok tt /\
   exists new,
     trace (snd (transcribe_large_audio recorded_audio_file be s))
       = trace s ++ new /\ cleanups new = 1).
Proof.
  unfold transcribe_large_audio_from_file, transcribe_large_audio.
  split; (split; [apply workflow_returns|]);
    apply appends_workflow; intros chunks; apply appends_transcribe_step.
Qed.

(** ** The branch on [hasattr] *)

(** C10.  For a backend object whose class derives from
    [TranscriptionBackend], [hasattr(backend, 'transcribe_chunks')]
    holds, step 2 of the workflow is the batch branch, and both
    large-file workflows are the workflow with the fallback branch
    removed: a job that gets as far as step 2 calls
    [backend.transcribe_chunks]. *)
Theorem fallback_unreachable (be : BackendObject X) :
  isinstance (py_object be) TranscriptionBackend ->
  hasattr (py_object be) "transcribe_chunks" = true /\
  (forall chunk_files,
      transcribe_step be chunk_files = batch_path be chunk_files) /\
  (forall audio_file,
      transcribe_large_audio_from_file be audio_file
        = workflow (batch_path be) audio_file) /\
  (forall recorded_audio_file,
      transcribe_large_audio recorded_audio_file be
        = workflow (batch_path be) recorded_audio_file).
Proof.
  intros Hinst.
  assert (Hattr : hasattr (py_object be) "transcribe_chunks" = true).
  { apply hasattr_isinstance with (c := TranscriptionBackend); auto. }
  split; [exact Hattr|].
  unfold transcribe_large_audio_from_file, transcribe_large_audio,
    transcribe_step.
  rewrite Hattr. repeat split; reflexivity.
Qed.

(** ** Cancellation and the error handler *)

(** No callback the worker schedules shows the cancelled indicator. *)
Lemma callbacks_never_show_canceling (cb : Callback) :
  filter is_canceling (run_callback cb) = [].
Proof. destruct cb; reflexivity. Qed.

(** A large-file job whose splitting succeeds and whose step 2 raises
    [e] ends by scheduling the error handler with [str(e)], then cleans
    up. *)
Lemma workflow_step_raises (step : list string -> M (Machine X) string)
      (audio_file : string) (chunk_files : list string) (e : exn)
      (s s1 s2 : Machine X) :
  split_audio audio_file
    (emit [After (UpdateStatus "Processing large audio file...")] s)
    = (Ok chunk_files, s1) ->
  chunk_files <> [] ->
  step chunk_files s1 = (Raise e, s2) ->
  trace (snd (workflow step audio_file s))
    = trace s2 ++ [After (OnTranscriptionError (exn_msg e)); CleanupTempFiles].
Proof.
  intros Hsplit Hne Hstep.
  unfold workflow, try_finally, try_except, workflow_body, bind.
  unfold after at 1, modify. rewrite Hsplit.
  destruct chunk_files as [|c chunks]; [contradiction|].
  rewrite Hstep. unfold after, modify, cleanup. simpl.
  destruct (cleanup_temp_files _) as [[[]|e'] w]; simpl;
    now rewrite <- app_assoc.
Qed.

(** C2, amended.  A large-file job whose step 2 raises the cancelled
    exception, and a direct job whose [transcribe] raises it, both end
    by scheduling [_on_transcription_error] with the text
    "Transcription cancelled", the handler every other exception
    reaches with its own text.  That handler opens the error dialog
    "Transcription failed: Transcription cancelled" and shows no
    cancelled indicator. *)
Theorem cancellation_takes_error_path (be : BackendObject X)
        (audio_file : string) (s : Machine X) :
  (forall chunk_files s1 s2,
      split_audio audio_file
        (emit [After (UpdateStatus "Processing large audio file...")] s)
        = (Ok chunk_files, s1) ->
      chunk_files <> [] ->
      transcribe_step be chunk_files s1 = (Raise cancelled, s2) ->
      trace (snd (transcribe_large_audio_from_file be audio_file s))
        = trace s2 ++ [After (OnTranscriptionError "Transcription cancelled");
                       CleanupTempFiles]) /\
  (forall s2,
      on_backend (bound_transcribe be audio_file)
                 (emit [Now (UpdateStatus "Transcribing...")] s)
        = (Raise cancelled, s2) ->
      trace (snd (transcribe_audio_from_file be audio_file s))
        = trace s2 ++ [After (OnTranscriptionError "Transcription cancelled")]) /\
  filter is_error_dialog
         (run_callback (OnTranscriptionError "Transcription cancelled"))
    = [ShowError "Error" "Transcription failed: Transcription cancelled"] /\
  filter is_canceling
         (run_callback (OnTranscriptionError "Transcription cancelled"))
    = [].
Proof.
  split; [|split; [|split; reflexivity]].
  - intros chunks s1 s2 Hsplit Hne Hstep.
    exact (@workflow_step_raises (transcribe_step be) audio_file chunks
                                 cancelled s s1 s2 Hsplit Hne Hstep).
  - intros s2 Hcall.
    unfold transcribe_audio_from_file, try_except, bind.
    unfold now at 1, modify. rewrite Hcall. reflexivity.
Qed.

End Workflow.

(** The instance of C10 for a subclass that inherits the default. *)
Lemma fallback_unreachable_witness :
  hasattr (py_object (DemoUI.echo_backend Demo.never)) "transcribe_chunks"
    = true /\
  transcribe_large_audio_from_file (DemoUI.echo_backend Demo.never) "long.wav"
    = workflow (batch_path (DemoUI.echo_backend Demo.never)) "long.wav".
Proof.
  assert (Hinst : isinstance (py_object (DemoUI.echo_backend Demo.never))
                             TranscriptionBackend).
  { unfold isinstance. simpl.
    apply subclass_base with (b := TranscriptionBackend);
      [left; reflexivity | apply subclass_refl]. }
  destruct (@fallback_unreachable (Demo.studio Demo.never) unit
              (DemoUI.echo_backend Demo.never) Hinst) as (H1 & _ & H3 & _).
  split; [exact H1 | exact (H3 "long.wav")].
Defined.

(** C2, as worded, fails.  Three chunks, cancel pressed while the second
    is transcribed: the default [transcribe_chunks] observes the flag at
    the third iteration, and the job ends in the error handler.  The only
    dialog the Tk thread opens for the job is the error dialog, and it
    shows no cancelled indicator. *)
Lemma cancelled_job_shows_error_dialog :
  let s' := snd (transcribe_large_audio_from_file
                   (DemoUI.echo_backend Demo.during_c2) "long.wav"
                   (DemoUI.idle Demo.during_c2)) in
  should_cancel (backend s') = true /\
  trace s' =
    [After (UpdateStatus "Processing large audio file...");
     SplitAudio "long.wav";
     After (UpdateStatus "Splitting into 3 chunks");
     After (UpdateStatus "Transcribing 3 chunks...");
     BackendCall (Transcribe "c1" (Ok "c1"));
     BackendCall (Transcribe "c2" (Ok "c2"));
     After (OnTranscriptionError "Transcription cancelled");
     CleanupTempFiles] /\
  filter is_error_dialog (ui_actions (trace s'))
    = [ShowError "Error" "Transcription failed: Transcription cancelled"] /\
  filter is_canceling (ui_actions (trace s')) = [].
Proof. cbv zeta. repeat split; reflexivity. Qed.

(** The instance of amended C2 for the same job. *)
Lemma cancellation_takes_error_path_witness :
  trace (snd (transcribe_large_audio_from_file
                (DemoUI.echo_backend Demo.during_c2) "long.wav"
                (DemoUI.idle Demo.during_c2)))
  = [After (UpdateStatus "Processing large audio file...");
     SplitAudio "long.wav";
     After (UpdateStatus "Splitting into 3 chunks");
     After (UpdateStatus "Transcribing 3 chunks...");
     BackendCall (Transcribe "c1" (Ok "c1"));
     BackendCall (Transcribe "c2" (Ok "c2"))]
    ++ [After (OnTranscriptionError "Transcription cancelled");
        CleanupTempFiles].
Proof.
  pose (be := DemoUI.echo_backend Demo.during_c2).
  pose (s := DemoUI.idle Demo.during_c2).
  pose (s1 := snd (split_audio "long.wav"
             (emit [After (UpdateStatus "Processing large audio file...")] s))).
  pose (s2 := snd (transcribe_step be Demo.three_chunks s1)).
  apply (proj1 (@cancellation_takes_error_path (Demo.studio Demo.during_c2)
                  unit be "long.wav" s) Demo.three_chunks s1 s2).
  - reflexivity.
  - discriminate.
  - reflexivity.
Defined.

(** ** The three ways of transcribing a chunk list *)

Section ThreePaths.
Import OpenAI.
Context {E : External} {X : Type}.
Variable transcribe : string -> Method X string.
Variable f : string -> string.

(** The default loop, when every call returns [f] of its chunk and the
    cancel flag stays clear. *)
Lemma default_loop_agrees (chunks acc : list string) (s : BMachine X) :
  (forall c bw, In c chunks -> fst (transcribe c bw) = Ok (f c)) ->
  (forall c bw, In c chunks -> should_cancel (fst bw) = false ->
                should_cancel (fst (snd (transcribe c bw))) = false) ->
  should_cancel (self s) = false ->
  fst (default_loop transcribe chunks acc s) = Ok (acc ++ map f chunks).
Proof.
  revert acc s. induction chunks as [|c chunks IH]; intros acc s Hf Hkeep Hflag.
  - simpl. now rewrite app_nil_r.
  - rewrite default_loop_cons, Hflag. unfold invoke.
    pose proof (Hf c (self s, world s) (or_introl eq_refl)) as Hr.
    pose proof (Hkeep c (self s, world s) (or_introl eq_refl) Hflag) as Hk.
    destruct (transcribe c (self s, world s)) as [r [b w]].
    simpl in Hr, Hk. subst r.
    rewrite IH; simpl; auto.
    + now rewrite <- app_assoc.
    + intros c' bw Hin. apply Hf. now right.
    + intros c' bw Hin. apply Hkeep. now right.
Qed.

(** The fallback loop, when every call returns [f] of its chunk. *)
Lemma fallback_loop_agrees (c0 : PyObj.pyclass) (total i : nat)
      (chunks acc : list string) (s : Machine X) :
  (forall c bw, In c chunks -> fst (transcribe c bw) = Ok (f c)) ->
  fst (fallback_loop (lacking_backend c0 transcribe) total i chunks acc s)
    = Ok (acc ++ map f chunks).
Proof.
  revert i acc s. induction chunks as [|c chunks IH]; intros i acc s Hf.
  - simpl. now rewrite app_nil_r.
  - cbn [fallback_loop]. unfold bind at 1. unfold after at 1, modify.
    unfold bind at 1. unfold on_backend at 1.
    cbn [bound_transcribe lacking_backend]. unfold invoke.
    cbn [self world].
    match goal with
    | |- context [transcribe c ?bw] =>
        pose proof (Hf c bw (or_introl eq_refl)) as Hr;
        destruct (transcribe c bw) as [r [b w]]
    end.
    simpl in Hr. subst r. cbv beta iota.
    rewrite IH.
    + simpl. now rewrite <- app_assoc.
    + intros c' bw Hin. apply Hf. now right.
Qed.

(** The OpenAI loop, when every request is answered with a text whose
    stripped form is [f] of its chunk and cancel is not pressed. *)
Lemma chunk_loop_agrees (api_model : string) (chunks acc : list string)
      (s : BMachine Fields) :
  (forall c w, In c chunks ->
     exists r, api_response (fst (api_create api_model c w)) = Ok r /\
               strip r = f c) ->
  (forall c w, In c chunks ->
     cancel_pressed (fst (api_create api_model c w)) = false) ->
  should_cancel (self s) = false ->
  fst (chunk_loop api_model chunks acc s) = Ok (acc ++ map f chunks).
Proof.
  revert acc s. induction chunks as [|c chunks IH]; intros acc s Hf Hquiet Hflag.
  - simpl. now rewrite app_nil_r.
  - rewrite chunk_loop_cons, Hflag.
    destruct (request_effect api_model c s) as (Hr & _ & _ & _ & Hc).
    destruct (Hf c (world s) (or_introl eq_refl)) as (r & Hresp & Hstrip).
    rewrite (Hquiet c (world s) (or_introl eq_refl)), Hflag in Hc.
    rewrite Hresp in Hr.
    destruct (request api_model c s) as [r' s1]. simpl in Hr, Hc. subst r'.
    rewrite IH; auto.
    + simpl. now rewrite Hstrip, <- app_assoc.
    + intros c' w Hin. apply Hf. now right.
    + intros c' w Hin. apply Hquiet. now right.
Qed.

(** C4, amended.  Let every per-chunk transcription of [chunk_files] be
    [f] of the chunk: [transcribe] returns it, and the API answers with
    a text that strips to it.  When moreover the cancel flag is clear at
    the start and is not raised during any per-chunk call, and the
    OpenAI backend is available, then the inherited default
    [transcribe_chunks], the workflow's fallback branch run on a backend
    without [transcribe_chunks], and the OpenAI [transcribe_chunks] all
    return the combination of the list of [f c] in chunk order. *)
Theorem chunk_paths_agree_without_cancel
        (c0 : PyObj.pyclass) (chunk_files : list string)
        (s : BMachine X) (m : Machine X) (o : BMachine Fields) :
  (forall c bw, In c chunk_files -> fst (transcribe c bw) = Ok (f c)) ->
  (forall c w, In c chunk_files ->
     exists r, api_response (fst (api_create (get_api_model_name (self o)) c w))
                 = Ok r /\ strip r = f c) ->
  (forall c bw, In c chunk_files -> should_cancel (fst bw) = false ->
                should_cancel (fst (snd (transcribe c bw))) = false) ->
  (forall c w, In c chunk_files ->
     cancel_pressed (fst (api_create (get_api_model_name (self o)) c w))
       = false) ->
  should_cancel (self s) = false ->
  is_available (self o) = true ->
  let combined := Ok (combine_transcriptions (map f chunk_files)) in
  fst (Base.transcribe_chunks transcribe chunk_files s) = combined /\
  fst (fallback_path (lacking_backend c0 transcribe) chunk_files m) = combined /\
  fst (OpenAI.transcribe_chunks chunk_files o) = combined.
Proof.
  intros Hf Hapi Hkeep Hquiet Hflag Hav. cbv zeta. repeat split.
  - unfold Base.transcribe_chunks, bind.
    pose proof (default_loop_agrees chunk_files [] s Hf Hkeep Hflag) as H.
    destruct (default_loop transcribe chunk_files [] s) as [r s1].
    simpl in H. subst r. reflexivity.
  - unfold fallback_path, bind.
    pose proof (fallback_loop_agrees c0 (length chunk_files) 0 chunk_files
                                     [] m Hf) as H.
    destruct (fallback_loop _ _ 0 chunk_files [] m) as [r s1].
    simpl in H. subst r. reflexivity.
  - rewrite (transcribe_chunks_available chunk_files o Hav).
    pose proof (chunk_loop_agrees (get_api_model_name (self o)) chunk_files
                                  [] (entered o) Hapi Hquiet eq_refl) as H.
    destruct (chunk_loop _ chunk_files [] (entered o)) as [r s1].
    simpl in H. subst r. reflexivity.
Qed.

End ThreePaths.

(** C4, as worded, fails: the three differ in how they treat the cancel
    flag.  The per-chunk [transcribe] returns the same text for each
    chunk whoever calls it, and so does the API.
      - With the flag left set by an earlier [cancel_transcription] and
        never pressed again, the inherited default [transcribe_chunks]
        raises at its first iteration, while the OpenAI one clears the
        flag on entry and returns the combined text, as the fallback
        branch does.
      - With cancel pressed while the second of three chunks is
        transcribed, the inherited default raises at the third
        iteration, while the fallback branch never reads the flag and
        returns the combined text. *)
Lemma chunk_paths_differ_on_cancel :
  (forall cancel_at path bw, fst (Demo.echo cancel_at path bw) = Ok path) /\
  (fst (Base.transcribe_chunks (Demo.echo Demo.never) Demo.three_chunks
          (Demo.start Demo.never (Base.cancel_transcription (Base.init tt))))
     = Raise cancelled /\
   fst (OpenAI.transcribe_chunks Demo.three_chunks
          (Demo.start Demo.never (Base.cancel_transcription Demo.ready)))
     = Ok "c1 c2 c3" /\
   fst (fallback_path (DemoUI.legacy_backend Demo.never) Demo.three_chunks
          (@Build_Machine (Demo.studio Demo.never) unit
                          (Base.cancel_transcription (Base.init tt)) tt []))
     = Ok "c1 c2 c3") /\
  (fst (Base.transcribe_chunks (Demo.echo Demo.during_c2) Demo.three_chunks
          (Demo.start Demo.during_c2 (Base.init tt)))
     = Raise cancelled /\
   fst (fallback_path (DemoUI.legacy_backend Demo.during_c2) Demo.three_chunks
          (DemoUI.idle Demo.during_c2))
     = Ok "c1 c2 c3").
Proof. repeat split; reflexivity. Qed.

(** The instance of amended C4 where cancel is never pressed. *)
Lemma chunk_paths_agree_without_cancel_witness :
  fst (Base.transcribe_chunks (Demo.echo Demo.never) Demo.three_chunks
         (Demo.start Demo.never (Base.init tt))) = Ok "c1 c2 c3" /\
  fst (fallback_path (DemoUI.legacy_backend Demo.never) Demo.three_chunks
         (DemoUI.idle Demo.never)) = Ok "c1 c2 c3" /\
  fst (OpenAI.transcribe_chunks Demo.three_chunks
         (Demo.start Demo.never Demo.ready)) = Ok "c1 c2 c3".
Proof.
  apply (@chunk_paths_agree_without_cancel (Demo.studio Demo.never) unit
           (Demo.echo Demo.never) (fun c => c) DemoUI.LegacyBackend
           Demo.three_chunks
           (Demo.start Demo.never (Base.init tt))
           (DemoUI.idle Demo.never)
           (Demo.start Demo.never Demo.ready)).
  - intros c bw _. reflexivity.
  - intros c w Hin. simpl in Hin.
    destruct Hin as [<-|[<-|[<-|[]]]]; eexists; split; reflexivity.
  - intros c bw _ H. exact H.
  - intros c w _. reflexivity.
  - reflexivity.
  - reflexivity.
Defined.

End WorkflowFacts.

(* ================================================================== *)
(** * Facts about the keyboard event handler *)
(* ================================================================== *)

Module HandlerFacts.
Import PyStr Py PyDict Hotkey HotkeyEvents HotkeyFacts.
Local Open Scope Q_scope.

(** ** Dictionaries *)

Lemma get_set_item_same (d : dict) (k v : string) :
  get (set_item d k v) k = Some v.
Proof.
  induction d as [|[k' v'] d IH]; simpl.
  - now rewrite String.eqb_refl.
  - destruct (String.eqb_spec k' k) as [->|Hne]; simpl.
    + now rewrite String.eqb_refl.
    + apply String.eqb_neq in Hne. now rewrite Hne.
Qed.

Lemma get_set_item_other (d : dict) (k k' v : string) :
  k' <> k -> get (set_item d k v) k' = get d k'.
Proof.
  intros Hne. induction d as [|[k0 v0] d IH]; simpl.
  - destruct (String.eqb_spec k k'); [congruence | reflexivity].
  - destruct (String.eqb_spec k0 k) as [->|Hk]; simpl.
    + destruct (String.eqb_spec k k'); [congruence | reflexivity].
    + destruct (String.eqb_spec k0 k'); [reflexivity | exact IH].
Qed.

Lemma get_app_none (xs ys : dict) (k : string) :
  get xs k = None -> get (xs ++ ys) k = get ys k.
Proof.
  induction xs as [|[k' v'] xs IH]; simpl; [reflexivity|].
  destruct (k' =? k); [discriminate | exact IH].
Qed.

Lemma get_app_some (xs ys : dict) (k v : string) :
  get xs k = Some v -> get (xs ++ ys) k = Some v.
Proof.
  induction xs as [|[k' v'] xs IH]; simpl; [discriminate|].
  destruct (k' =? k); [auto | exact IH].
Qed.

(** After [d.update(new)] a key is bound to what [new] binds it to
    last, and to what [d] bound it to when [new] does not mention it. *)
Lemma get_update (new d : dict) (k : string) :
  get (update d new) k =
    match last_binding new k with
    | Some v => Some v
    | None => get d k
    end.
Proof.
  unfold update, last_binding. revert d.
  induction new as [|[k' v'] new IH]; intros d; simpl; [reflexivity|].
  rewrite IH. clear IH.
  destruct (get (rev new) k) as [v|] eqn:Hrev.
  - now rewrite (get_app_some _ _ _ Hrev).
  - rewrite (get_app_none _ _ _ Hrev). simpl.
    destruct (String.eqb_spec k' k) as [->|Hne].
    + apply get_set_item_same.
    + apply get_set_item_other. congruence.
Qed.

(** X7.  After [update_hotkeys(new_hotkeys)] an action that
    [new_hotkeys] mentions is bound to the specification given for it
    (the last one, should it be given twice), and an action it does not
    mention keeps the specification it had; the debounce state and the
    four callbacks are untouched. *)
Theorem update_hotkeys_merges (new_hotkeys : dict) (m : Manager)
        (action : string) :
  let m' := update_hotkeys new_hotkeys m in
  (forall spec, last_binding new_hotkeys action = Some spec ->
                getitem (hotkeys m') action = Ok spec) /\
  (last_binding new_hotkeys action = None ->
     getitem (hotkeys m') action = getitem (hotkeys m) action) /\
  state m' = state m /\
  on_record_toggle m' = on_record_toggle m /\
  on_cancel m' = on_cancel m /\
  on_enable_toggle m' = on_enable_toggle m /\
  on_status_update m' = on_status_update m.
Proof.
  cbv zeta. unfold getitem, update_hotkeys. simpl.
  rewrite get_update. repeat split.
  - intros spec H. now rewrite H.
  - intros H. now rewrite H.
Qed.

(** An instance: rebinding only the cancel key. *)
Lemma update_hotkeys_merges_witness :
  getitem (hotkeys (update_hotkeys [("cancel", "esc")] sample_manager))
          "cancel" = Ok "esc" /\
  getitem (hotkeys (update_hotkeys [("cancel", "esc")] sample_manager))
          "record_toggle" = Ok "*".
Proof.
  split.
  - apply (proj1 (update_hotkeys_merges [("cancel", "esc")] sample_manager
                                        "cancel")).
    reflexivity.
  - rewrite (proj1 (proj2 (update_hotkeys_merges [("cancel", "esc")]
                             sample_manager "record_toggle")));
      reflexivity.
Defined.

(** ** The handler *)

(** X1.  A key the handler lets through, and a key on which a lookup
    in the hotkey mapping fails, leave the manager as it was and start
    no callback: the handler acts only on keys it suppresses. *)
Theorem handler_inert_unless_suppressing
        (debounce_ms : Q) (kb : Keyboard) (now : Q) (ev : KeyboardEvent)
        (m : Manager) :
  let '(r, m', effects) := handle_keyboard_event debounce_ms kb now ev m in
  r <> Ok false -> m' = m /\ effects = [].
Proof.
  unfold handle_keyboard_event.
  destruct (event_type ev); [|simpl; auto].
  destruct (getitem (hotkeys m) "enable_disable") as [ed|e]; [|simpl; auto].
  destruct (matches_hotkey kb (key ev) ed).
  { destruct (toggle_program_enabled m). simpl. intros H. now contradiction H. }
  destruct (negb (program_enabled (state m))).
  { destruct (negb (matches_hotkey kb (key ev) ed)); simpl; auto. }
  destruct (getitem (hotkeys m) "record_toggle") as [rt|e]; [|simpl; auto].
  destruct (matches_hotkey kb (key ev) rt).
  { destruct (should_trigger_record_toggle debounce_ms now (state m)).
    simpl. intros H. now contradiction H. }
  destruct (getitem (hotkeys m) "cancel") as [c|e]; [|simpl; auto].
  destruct (matches_hotkey kb (key ev) c); simpl; [|auto].
  intros H. now contradiction H.
Qed.

(** An instance: an unbound key goes through. *)
Lemma handler_inert_unless_suppressing_witness :
  handle_keyboard_event 500 nothing_held 1000 (key_down "a") sample_manager
    = (Ok true, sample_manager, []).
Proof.
  pose proof (handler_inert_unless_suppressing 500 nothing_held 1000
                (key_down "a") sample_manager) as H.
  destruct (handle_keyboard_event 500 nothing_held 1000 (key_down "a")
                                  sample_manager) as [[r m'] effects] eqn:E.
  assert (Hr : r = Ok true) by (inversion E; reflexivity).
  destruct H as [-> ->]; [rewrite Hr; discriminate|].
  now rewrite Hr.
Defined.

Section Bound.
Variables (debounce_ms : Q) (kb : Keyboard) (now : Q).
Variables (ev : KeyboardEvent) (m : Manager).
Variables (enable_disable record_toggle cancel : string).
Hypothesis Hed : get (hotkeys m) "enable_disable" = Some enable_disable.
Hypothesis Hrt : get (hotkeys m) "record_toggle" = Some record_toggle.
Hypothesis Hc : get (hotkeys m) "cancel" = Some cancel.

(** X2.  With the three actions bound, the handler never raises, and it
    suppresses exactly the key-down events that match the
    enable/disable hotkey or, while the program is enabled, the
    record-toggle or the cancel hotkey.  While the program is disabled
    the record-toggle and cancel keys reach the other applications. *)
Theorem suppressed_keys :
  fst (fst (handle_keyboard_event debounce_ms kb now ev m)) =
    Ok (negb (match event_type ev with KEY_DOWN => true | KEY_UP => false end
              && (matches_hotkey kb (key ev) enable_disable
                  || program_enabled (state m)
                     && (matches_hotkey kb (key ev) record_toggle
                         || matches_hotkey kb (key ev) cancel)))).
Proof.
  unfold handle_keyboard_event, getitem. rewrite Hed, Hrt, Hc.
  destruct (event_type ev); [|reflexivity].
  destruct (matches_hotkey kb (key ev) enable_disable).
  { destruct (toggle_program_enabled m). reflexivity. }
  destruct (program_enabled (state m)); simpl; [|reflexivity].
  destruct (matches_hotkey kb (key ev) record_toggle).
  { destruct (should_trigger_record_toggle debounce_ms now (state m)).
    reflexivity. }
  destruct (matches_hotkey kb (key ev) cancel); reflexivity.
Qed.

(** X3.  The callbacks a key-down starts.  [on_record_toggle] is
    started exactly when the program is enabled, the key matches the
    record-toggle hotkey and not the enable/disable one, and more than
    the debounce interval has passed since the last start; a press that
    comes sooner is swallowed without a start.  [on_cancel] is started
    exactly when the program is enabled and the key matches the cancel
    hotkey and neither of the other two.  A key that matches the
    enable/disable hotkey starts neither. *)
Theorem started_callbacks :
  event_type ev = KEY_DOWN ->
  let '(_, m', effects) := handle_keyboard_event debounce_ms kb now ev m in
  let ed := matches_hotkey kb (key ev) enable_disable in
  let rt := matches_hotkey kb (key ev) record_toggle in
  let c := matches_hotkey kb (key ev) cancel in
  let due := Qgtb (now - last_trigger_time (state m)) (debounce_ms / 1000) in
  (ed = true -> forall target, ~ In (ThreadStart target) effects) /\
  (ed = false ->
     effects =
       if program_enabled (state m) then
         if rt then (if due then start_if_set (on_record_toggle m) else [])
         else if c then start_if_set (on_cancel m) else []
       else []) /\
  (last_trigger_time (state m') =
     if negb ed && program_enabled (state m) && rt && due
     then now else last_trigger_time (state m)).
Proof.
  intros Hdown. unfold handle_keyboard_event, getitem.
  rewrite Hdown, Hed, Hrt, Hc.
  destruct (matches_hotkey kb (key ev) enable_disable).
  { unfold toggle_program_enabled. cbv zeta. repeat split.
    - intros _ target.
      destruct (on_status_update m);
        [destruct (negb (negb (program_enabled (state m))))|];
        simpl; intuition discriminate.
    - discriminate. }
  destruct (program_enabled (state m)); simpl.
  2:{ repeat split; auto; discriminate. }
  destruct (matches_hotkey kb (key ev) record_toggle); simpl.
  { unfold should_trigger_record_toggle.
    destruct (Qgtb (now - last_trigger_time (state m)) (debounce_ms / 1000));
      simpl; repeat split; auto; discriminate. }
  destruct (matches_hotkey kb (key ev) cancel);
    simpl; repeat split; auto; discriminate.
Qed.

End Bound.

(** Instances of the two theorems above on the sample manager: the record-toggle key
    ["*"] pressed at second 1000, the last start being at second 0. *)
Lemma suppressed_keys_witness :
  fst (fst (handle_keyboard_event 500 nothing_held 1000 (key_down "*")
                                  sample_manager)) = Ok false.
Proof.
  rewrite (@suppressed_keys 500 nothing_held 1000 (key_down "*")
             sample_manager "ctrl+alt+*" "*" "-");
    reflexivity.
Defined.

Lemma started_callbacks_witness :
  snd (handle_keyboard_event 500 nothing_held 1000 (key_down "*")
                             sample_manager) = [ThreadStart 1%nat].
Proof.
  pose proof (@started_callbacks 500 nothing_held 1000 (key_down "*")
                sample_manager "ctrl+alt+*" "*" "-"
                eq_refl eq_refl eq_refl eq_refl) as H.
  destruct (handle_keyboard_event 500 nothing_held 1000 (key_down "*")
                                  sample_manager) as [[r m'] effects].
  destruct H as (_ & H & _). simpl. rewrite (H eq_refl). reflexivity.
Defined.

(** X4.  A key-down that matches the enable/disable hotkey is
    suppressed, flips [program_enabled], reports the new state to
    [on_status_update] when that callback is set and does nothing else;
    the same key handled a second time puts the manager back exactly
    as it was. *)
Theorem enable_key_toggles (debounce_ms : Q) (kb : Keyboard) (now now' : Q)
        (ev : KeyboardEvent) (m : Manager) (spec : string) :
  event_type ev = KEY_DOWN ->
  get (hotkeys m) "enable_disable" = Some spec ->
  matches_hotkey kb (key ev) spec = true ->
  let '(r, m1, effects) := handle_keyboard_event debounce_ms kb now ev m in
  r = Ok false /\
  program_enabled (state m1) = negb (program_enabled (state m)) /\
  effects = match on_status_update m with
            | Some cb => [StatusCall cb (if program_enabled (state m)
                                         then "STT Disabled"
                                         else "STT Enabled")]
            | None => []
            end /\
  snd (fst (handle_keyboard_event debounce_ms kb now' ev m1)) = m.
Proof.
  intros Hdown Hed Hmatch.
  unfold handle_keyboard_event at 1, getitem.
  rewrite Hdown, Hed, Hmatch. unfold toggle_program_enabled. cbv zeta.
  repeat split.
  - destruct (on_status_update m); [|reflexivity].
    destruct (program_enabled (state m)); reflexivity.
  - unfold handle_keyboard_event, getitem. rewrite Hdown. simpl hotkeys.
    rewrite Hed, Hmatch. simpl.
    destruct m as [[enabled last] hk c1 c2 c3 c4]. simpl.
    now rewrite negb_involutive.
Qed.

Lemma enable_key_toggles_witness :
  let held := fun k => (k =? "ctrl")%string || (k =? "alt")%string in
  snd (handle_keyboard_event 500 held 1000 (key_down "*") sample_manager)
    = [StatusCall 3%nat "STT Disabled"].
Proof.
  cbv zeta.
  pose proof (@enable_key_toggles 500
                (fun k => (k =? "ctrl")%string || (k =? "alt")%string)
                1000 1001 (key_down "*") sample_manager "ctrl+alt+*"
                eq_refl eq_refl eq_refl) as H.
  destruct (handle_keyboard_event 500 _ 1000 (key_down "*") sample_manager)
    as [[r m1] effects].
  destruct H as (_ & _ & H & _). simpl. rewrite H. reflexivity.
Defined.

(** X5.  A binding missing from the hotkey mapping makes the handler
    raise [KeyError] when a key-down gets as far as looking it up, and
    only then: without ["enable_disable"] every key-down raises; without
    ["record_toggle"] the keys other than the enable/disable hotkey
    raise while the program is enabled; without ["cancel"] the keys
    that match neither of the other two do.  While the program is
    disabled the last two bindings are not looked up.  The manager is
    unchanged whenever the handler raises. *)
Theorem missing_binding_raises (debounce_ms : Q) (kb : Keyboard) (now : Q)
        (ev : KeyboardEvent) (m : Manager) :
  event_type ev = KEY_DOWN ->
  let run := handle_keyboard_event debounce_ms kb now ev m in
  (get (hotkeys m) "enable_disable" = None ->
     run = (Raise (KeyError "enable_disable"), m, [])) /\
  (forall ed,
     get (hotkeys m) "enable_disable" = Some ed ->
     matches_hotkey kb (key ev) ed = false ->
     (program_enabled (state m) = false -> run = (Ok true, m, [])) /\
     (program_enabled (state m) = true ->
        (get (hotkeys m) "record_toggle" = None ->
           run = (Raise (KeyError "record_toggle"), m, [])) /\
        (forall rt,
           get (hotkeys m) "record_toggle" = Some rt ->
           matches_hotkey kb (key ev) rt = false ->
           get (hotkeys m) "cancel" = None ->
           run = (Raise (KeyError "cancel"), m, [])))).
Proof.
  intros Hdown. cbv zeta. unfold handle_keyboard_event, getitem.
  rewrite Hdown. split.
  - intros H. now rewrite H.
  - intros ed Hed Hmatch. rewrite Hed, Hmatch. split.
    + intros Hoff. rewrite Hoff. reflexivity.
    + intros Hon. rewrite Hon. simpl. split.
      * intros H. now rewrite H.
      * intros rt Hrt Hno Hc. now rewrite Hrt, Hno, Hc.
Qed.

Lemma missing_binding_raises_witness :
  handle_keyboard_event 500 nothing_held 1000 (key_down "a")
                        (with_hotkeys [("record_toggle", "*")] sample_manager)
  = (Raise (KeyError "enable_disable"),
     with_hotkeys [("record_toggle", "*")] sample_manager, []).
Proof.
  apply (proj1 (@missing_binding_raises 500 nothing_held 1000 (key_down "a")
                  (with_hotkeys [("record_toggle", "*")] sample_manager)
                  eq_refl)).
  reflexivity.
Defined.

(** ** Debounce over a burst *)

(** X6.  Whatever the times of a burst of record-toggle presses, each
    press the guard lets through comes more than the debounce interval
    after the previous one it let through, the first more than the
    interval after the stored last-trigger time; [count_triggers] counts
    these presses. *)
Theorem accepted_triggers_spaced (debounce_ms : Q) (times : list Q)
        (self : HotkeyManager) :
  gaps_exceed (debounce_ms / 1000) (last_trigger_time self)
              (accepted_triggers debounce_ms times self) /\
  count_triggers debounce_ms times self
    = length (accepted_triggers debounce_ms times self).
Proof.
  revert self. induction times as [|t times IH]; intros self.
  - simpl. auto.
  - cbn [accepted_triggers count_triggers].
    unfold should_trigger_record_toggle.
    destruct (Qgtb (t - last_trigger_time self) (debounce_ms / 1000)) eqn:Hdue.
    + destruct (IH (set_last_trigger_time t self)) as [Hgap Hcount].
      apply Qgtb_true in Hdue. simpl. split; [split; assumption|].
      now rewrite Hcount.
    + destruct (IH self) as [Hgap Hcount]. simpl. split; assumption.
Qed.

(** ** Installing the callbacks *)


End HandlerFacts.

(* ================================================================== *)
(** * Further facts about the backends *)
(* ================================================================== *)

Module BackendCallFacts.
Import PyStr Py Env Base BackendTrace BackendFacts.
Local Open Scope py_scope.

Lemma combined_lists_app (xs ys : list Call) :
  combined_lists (xs ++ ys) = combined_lists xs ++ combined_lists ys.
Proof. apply flat_map_app. Qed.

Section DefaultDiscipline.
Context {E : External} {X : Type}.
Variable transcribe : string -> Method X string.

(** However the default loop ends, what it submitted is a prefix of
    the chunk list, the whole list when it completes, and it has
    combined nothing. *)
Lemma default_loop_prefix (chunks acc : list string) (s : BMachine X) :
  exists new k,
    calls (snd (default_loop transcribe chunks acc s)) = calls s ++ new /\
    k <= length chunks /\
    requested new = firstn k chunks /\
    combined_lists new = [] /\
    (forall ts, fst (default_loop transcribe chunks acc s) = Ok ts ->
                k = length chunks /\ length ts = length acc + length chunks).
Proof.
  revert acc s. induction chunks as [|c chunks IH]; intros acc s.
  - exists [], 0. simpl. rewrite app_nil_r.
    split; [reflexivity|]. split; [lia|]. split; [reflexivity|].
    split; [reflexivity|]. intros ts H. inversion H; subst. lia.
  - rewrite default_loop_cons. destruct (should_cancel (self s)).
    { exists [], 0. simpl. rewrite app_nil_r.
      split; [reflexivity|]. split; [lia|]. split; [reflexivity|].
      split; [reflexivity|]. intros ts H. discriminate. }
    unfold invoke. destruct (transcribe c (self s, world s)) as [r [b w]].
    destruct r as [t|e].
    + match goal with
      | |- context [default_loop transcribe chunks ?a ?st] =>
          destruct (IH a st) as (new & k & Hc & Hk & Hreq & Hcomb & Hok)
      end.
      exists (Transcribe c (Ok t) :: new), (S k).
      rewrite Hc. simpl. rewrite <- app_assoc. simpl.
      split; [reflexivity|]. split; [lia|].
      split; [unfold requested in *; simpl; now rewrite Hreq|].
      split; [exact Hcomb|].
      intros ts Hts. destruct (Hok ts Hts) as [-> Hlen].
      split; [reflexivity|]. rewrite Hlen, length_app. simpl. lia.
    + exists [Transcribe c (Raise e)], 1. simpl.
      split; [reflexivity|]. split; [lia|]. split; [reflexivity|].
      split; [reflexivity|]. intros ts H. discriminate.
Qed.

(** X10.  In every run of the default [transcribe_chunks], whatever the
    per-chunk [transcribe] does, the files submitted are an initial
    part of [chunk_files] in order, each once.  When the call returns
    they are all of [chunk_files] and [combine_transcriptions] was
    called exactly once, on a list of as many texts, whose combination
    is the value; when it raises, [combine_transcriptions] was never
    called. *)
Theorem default_call_discipline (chunk_files : list string) (s : BMachine X) :
  let run := Base.transcribe_chunks transcribe chunk_files s in
  exists new k,
    calls (snd run) = calls s ++ new /\
    k <= length chunk_files /\
    requested new = firstn k chunk_files /\
    match fst run with
    | Ok text =>
        k = length chunk_files /\
        exists ts, combined_lists new = [ts] /\
                   length ts = length chunk_files /\
                   text = combine_transcriptions ts
    | Raise _ => combined_lists new = []
    end.
Proof.
  cbv zeta. unfold Base.transcribe_chunks, bind.
  destruct (default_loop_prefix chunk_files [] s)
    as (new & k & Hc & Hk & Hreq & Hcomb & Hok).
  destruct (default_loop transcribe chunk_files [] s) as [[ts|e] s1];
    simpl in *.
  - destruct (Hok ts eq_refl) as [-> Hlen].
    exists (new ++ [Combine ts]), (length chunk_files).
    rewrite Hc, <- app_assoc. repeat split; auto.
    + unfold requested in *. rewrite flat_map_app, Hreq. simpl.
      now rewrite app_nil_r.
    + exists ts. rewrite combined_lists_app, Hcomb. auto.
  - exists new, k. auto.
Qed.

(** X11.  The first per-chunk failure ends the default
    [transcribe_chunks]: when the chunks before [c] were transcribed,
    the cancel flag is clear and [transcribe] raises [e] on [c], the
    call raises that same [e], [c] is the last file submitted and the
    chunks after it are never submitted. *)
Theorem default_first_failure (before after : list string) (c : string)
        (acc : list string) (e : exn) (s s1 : BMachine X) :
  default_loop transcribe before [] s = (Ok acc, s1) ->
  should_cancel (self s1) = false ->
  fst (transcribe c (self s1, world s1)) = Raise e ->
  let run := Base.transcribe_chunks transcribe (before ++ c :: after) s in
  fst run = Raise e /\
  requested (calls (snd run)) = requested (calls s) ++ before ++ [c].
Proof.
  intros Hloop Hflag Hraise. cbv zeta.
  unfold Base.transcribe_chunks, bind.
  rewrite default_loop_app, Hloop, default_loop_cons, Hflag.
  unfold invoke. destruct (transcribe c (self s1, world s1)) as [r [b w]].
  simpl in Hraise. subst r. simpl. split; [reflexivity|].
  apply default_loop_ok in Hloop. destruct Hloop as (new & _ & Hlen & Hcalls).
  rewrite Hcalls, !requested_app, requested_transcribed_ok; auto.
  now rewrite <- app_assoc.
Qed.

End DefaultDiscipline.

Section OpenAIDiscipline.
Import OpenAI.
Context {E : External}.

(** However the OpenAI loop ends, what it requested is a prefix of the
    chunk list, the whole list when it completes, and it has combined
    nothing. *)
Lemma chunk_loop_prefix (api_model : string) (chunks acc : list string)
      (s : BMachine Fields) :
  exists new k,
    calls (snd (chunk_loop api_model chunks acc s)) = calls s ++ new /\
    k <= length chunks /\
    requested new = firstn k chunks /\
    combined_lists new = [] /\
    (forall ts, fst (chunk_loop api_model chunks acc s) = Ok ts ->
                k = length chunks /\ length ts = length acc + length chunks).
Proof.
  revert acc s. induction chunks as [|c chunks IH]; intros acc s.
  - exists [], 0. simpl. rewrite app_nil_r.
    split; [reflexivity|]. split; [lia|]. split; [reflexivity|].
    split; [reflexivity|]. intros ts H. inversion H; subst. lia.
  - rewrite chunk_loop_cons. destruct (should_cancel (self s)).
    { exists [], 0. simpl. rewrite app_nil_r.
      split; [reflexivity|]. split; [lia|]. split; [reflexivity|].
      split; [reflexivity|]. intros ts H. discriminate. }
    destruct (request_effect api_model c s) as (_ & Hcall & _).
    destruct (request api_model c s) as [[r|e] s1]; simpl in Hcall.
    + destruct (IH (acc ++ [strip r]) s1)
        as (new & k & Hc & Hk & Hreq & Hcomb & Hok).
      eexists (_ :: new), (S k).
      rewrite Hc, Hcall, <- app_assoc. simpl.
      split; [reflexivity|]. split; [lia|].
      split; [unfold requested in *; simpl; now rewrite Hreq|].
      split; [exact Hcomb|].
      intros ts Hts. destruct (Hok ts Hts) as [-> Hlen].
      split; [reflexivity|]. rewrite Hlen, length_app. simpl. lia.
    + eexists [_], 1. simpl.
      split; [exact Hcall|]. split; [lia|]. split; [reflexivity|].
      split; [reflexivity|]. intros ts H. discriminate.
Qed.

(** X12.  In every run of the OpenAI [transcribe_chunks] the files
    requested from the API are an initial part of [chunk_files] in
    order, each once, and none at all on an unavailable backend.  When
    the call returns they are all of [chunk_files] and
    [combine_transcriptions] was called exactly once, on a list of as
    many texts, whose combination is the value; when it raises,
    [combine_transcriptions] was never called. *)
Theorem openai_call_discipline (chunk_files : list string)
        (s : BMachine Fields) :
  let run := OpenAI.transcribe_chunks chunk_files s in
  exists new k,
    calls (snd run) = calls s ++ new /\
    k <= length chunk_files /\
    requested new = firstn k chunk_files /\
    (if is_available (self s) then True else new = []) /\
    match fst run with
    | Ok text =>
        k = length chunk_files /\
        exists ts, combined_lists new = [ts] /\
                   length ts = length chunk_files /\
                   text = combine_transcriptions ts
    | Raise _ => combined_lists new = []
    end.
Proof.
  cbv zeta. destruct (is_available (self s)) eqn:Hav.
  - rewrite (transcribe_chunks_available chunk_files s Hav).
    destruct (chunk_loop_prefix (get_api_model_name (self s)) chunk_files []
                                (entered s))
      as (new & k & Hc & Hk & Hreq & Hcomb & Hok).
    destruct (chunk_loop _ chunk_files [] (entered s)) as [[ts|e] s1];
      simpl in *.
    + destruct (Hok ts eq_refl) as [-> Hlen].
      exists (new ++ [Combine ts]), (length chunk_files).
      rewrite Hc, <- app_assoc.
      split; [reflexivity|]. split; [lia|].
      split; [unfold requested in *; rewrite flat_map_app, Hreq; simpl;
              now rewrite app_nil_r|].
      split; [exact I|]. split; [reflexivity|].
      exists ts. rewrite combined_lists_app, Hcomb. auto.
    + exists new, k. repeat split; auto.
  - rewrite (transcribe_chunks_unavailable chunk_files s Hav).
    exists [], 0. simpl. rewrite app_nil_r.
    repeat split; auto with arith.
Qed.

(** X13.  The first failing request ends the OpenAI
    [transcribe_chunks]: when the chunks before [c] were answered, the
    cancel flag is clear and the request for [c] raises [e], the call
    raises that same [e] with [is_transcribing] cleared, [c] is the last
    file requested and the chunks after it are never requested. *)
Theorem openai_first_failure (before after : list string) (c : string)
        (acc : list string) (e : exn) (s s1 : BMachine Fields) :
  is_available (self s) = true ->
  chunk_loop (get_api_model_name (self s)) before [] (entered s)
    = (Ok acc, s1) ->
  should_cancel (self s1) = false ->
  api_response (fst (api_create (get_api_model_name (self s)) c (world s1)))
    = Raise e ->
  let run := OpenAI.transcribe_chunks (before ++ c :: after) s in
  fst run = Raise e /\
  is_transcribing (self (snd run)) = false /\
  requested (calls (snd run)) = requested (calls s) ++ before ++ [c].
Proof.
  intros Hav Hloop Hflag Hraise. cbv zeta.
  rewrite (transcribe_chunks_available _ s Hav).
  rewrite chunk_loop_app, Hloop, chunk_loop_cons, Hflag.
  destruct (request_effect (get_api_model_name (self s)) c s1)
    as (Hr & Hcall & _).
  rewrite Hraise in Hr, Hcall.
  destruct (request _ c s1) as [r s2]. simpl in Hr, Hcall. subst r.
  simpl. split; [reflexivity|]. split; [reflexivity|].
  apply chunk_loop_ok in Hloop; [|reflexivity].
  destruct Hloop as (rs & _ & Hlen & Hcalls).
  rewrite Hcall, Hcalls, !requested_app, requested_answered_ok; auto.
  simpl. now rewrite <- app_assoc.
Qed.

(** X14.  An available OpenAI backend ignores the flags it is entered
    with: [transcribe] and [transcribe_chunks] set [is_transcribing]
    and clear [should_cancel] first, so a cancel requested before the
    call starts changes neither the outcome nor the final state. *)
Theorem stale_flags_ignored (transcribing cancel : bool)
        (path : string) (chunk_files : list string) (s : BMachine Fields) :
  is_available (self s) = true ->
  OpenAI.transcribe path (with_self (with_flags transcribing cancel) s)
    = OpenAI.transcribe path s /\
  OpenAI.transcribe_chunks chunk_files
                           (with_self (with_flags transcribing cancel) s)
    = OpenAI.transcribe_chunks chunk_files s.
Proof.
  intros Hav.
  assert (Hav' : is_available
                   (self (with_self (with_flags transcribing cancel) s)) = true)
    by exact Hav.
  rewrite (transcribe_available path _ Hav'),
          (transcribe_available path s Hav),
          (transcribe_chunks_available chunk_files _ Hav'),
          (transcribe_chunks_available chunk_files s Hav).
  split; reflexivity.
Qed.

(** X15.  The OpenAI [transcribe_chunks] reads the cancel flag only
    before a request.  When the chunks before the last one were
    answered with the flag still clear and the last request is
    answered, the call returns the combined text whether or not cancel
    was pressed during that last request, and leaves [should_cancel] as
    the press left it; [transcribe] on that same file and state raises
    the cancelled exception when cancel was pressed. *)
Theorem cancel_during_last_request (before : list string) (last : string)
        (acc : list string) (response : string) (s s1 : BMachine Fields) :
  is_available (self s) = true ->
  chunk_loop (get_api_model_name (self s)) before [] (entered s)
    = (Ok acc, s1) ->
  should_cancel (self s1) = false ->
  let out := fst (api_create (get_api_model_name (self s)) last (world s1)) in
  api_response out = Ok response ->
  let run := OpenAI.transcribe_chunks (before ++ [last]) s in
  fst run = Ok (combine_transcriptions (acc ++ [strip response])) /\
  should_cancel (self (snd run)) = cancel_pressed out /\
  (cancel_pressed out = true ->
     fst (OpenAI.transcribe last s1) = Raise cancelled).
Proof.
  intros Hav Hloop Hflag out Hresp. cbv zeta.
  destruct (chunk_loop_frame (get_api_model_name (self s)) before []
                             (entered s)) as (_ & Hsub & _).
  rewrite Hloop in Hsub. simpl in Hsub.
  rewrite (transcribe_chunks_available _ s Hav).
  rewrite chunk_loop_app, Hloop, chunk_loop_cons, Hflag.
  destruct (request_effect (get_api_model_name (self s)) last s1)
    as (Hr & _ & _ & _ & Hc).
  fold out in Hr, Hc. rewrite Hresp in Hr. rewrite Hflag, orb_false_r in Hc.
  destruct (request _ last s1) as [r s2] eqn:Hreq. simpl in Hr, Hc. subst r.
  simpl. split; [reflexivity|]. split; [exact Hc|].
  intros Hpressed.
  assert (Hav1 : is_available (self s1) = true).
  { unfold is_available in *. now rewrite Hsub. }
  assert (Hmodel : get_api_model_name (self s1) = get_api_model_name (self s)).
  { unfold get_api_model_name. now rewrite Hsub. }
  rewrite (transcribe_available last s1 Hav1), Hmodel.
  destruct (request_effect (get_api_model_name (self s)) last (entered s1))
    as (Hr' & _ & _ & _ & Hc').
  change (world (entered s1)) with (world s1) in Hr', Hc'.
  fold out in Hr', Hc'. rewrite Hresp in Hr'. rewrite Hpressed in Hc'.
  destruct (request _ last (entered s1)) as [r' s3]. simpl in Hr', Hc'.
  subst r'. now rewrite Hc'.
Qed.

(** X16.  An empty chunk list.  The default [transcribe_chunks] returns
    [combine_transcriptions([])] without transcribing anything, whether
    or not the cancel flag is set.  The OpenAI one, on an available
    backend, returns the same value without a request and leaves both
    flags clear. *)
Theorem empty_chunk_list :
  (forall (X : Type) (transcribe : string -> Method X string)
          (s : BMachine X),
      Base.transcribe_chunks transcribe [] s
        = (Ok (combine_transcriptions []), record_call (Combine []) s)) /\
  (forall s : BMachine Fields,
      is_available (self s) = true ->
      let run := OpenAI.transcribe_chunks [] s in
      fst run = Ok (combine_transcriptions []) /\
      calls (snd run) = calls s ++ [Combine []] /\
      is_transcribing (self (snd run)) = false /\
      should_cancel (self (snd run)) = false).
Proof.
  split; [reflexivity|].
  intros s Hav. cbv zeta. rewrite (transcribe_chunks_available [] s Hav).
  simpl. auto.
Qed.

(** ** The client and the key *)

Lemma transcribe_keeps_fields (path : string) (s : BMachine Fields) :
  sub (self (snd (OpenAI.transcribe path s))) = sub (self s).
Proof.
  destruct (is_available (self s)) eqn:Hav.
  - rewrite (transcribe_available path s Hav).
    destruct (request_effect (get_api_model_name (self s)) path (entered s))
      as (_ & _ & _ & Hsub & _).
    destruct (request _ path (entered s)) as [[r|e] s1]; simpl in *.
    + destruct (should_cancel (self s1)); exact Hsub.
    + exact Hsub.
  - now rewrite (transcribe_unavailable path s Hav).
Qed.

Lemma transcribe_chunks_keeps_fields (chunks : list string)
      (s : BMachine Fields) :
  sub (self (snd (OpenAI.transcribe_chunks chunks s))) = sub (self s).
Proof.
  destruct (is_available (self s)) eqn:Hav.
  - rewrite (transcribe_chunks_available chunks s Hav).
    destruct (chunk_loop_frame (get_api_model_name (self s)) chunks []
                               (entered s)) as (_ & Hsub & _).
    destruct (chunk_loop _ chunks [] (entered s)) as [[ts|e] s1];
      exact Hsub.
  - now rewrite (transcribe_chunks_unavailable chunks s Hav).
Qed.

Lemma initialize_client_matches (constructed : bool) (b : OpenAIBackend) :
  client_matches_key (initialize_client constructed b).
Proof.
  unfold client_matches_key, initialize_client.
  destruct (api_key (sub b)) as [key|] eqn:Hkey; [|exact I].
  destruct (String.eqb_spec key "") as [->|Hne]; [exact I|].
  destruct constructed; simpl; [|exact I].
  rewrite Hkey. auto.
Qed.

(** X17.  Between calls, however the backend was built, re-keyed,
    re-targeted, cancelled and used, its client, when it has one, was
    built from the key it stores and that key is not empty; hence the
    backend is available exactly when it has a client. *)
Theorem reachable_client_matches_key (s : BMachine Fields) :
  reachable s ->
  client_matches_key (self s) /\
  (is_available (self s) = true <-> client (sub (self s)) <> None).
Proof.
  intros Hreach.
  assert (Hinv : client_matches_key (self s)).
  { induction Hreach as [model key constructed w | s path _ IH
                        | s chunks _ IH | s _ IH | s _ IH
                        | s key constructed _ IH | s model _ IH].
    - apply initialize_client_matches.
    - unfold client_matches_key in *. now rewrite transcribe_keeps_fields.
    - unfold client_matches_key in *.
      now rewrite transcribe_chunks_keeps_fields.
    - exact IH.
    - exact IH.
    - apply initialize_client_matches.
    - exact IH. }
  split; [exact Hinv|].
  unfold is_available, client_matches_key in *.
  destruct (client (sub (self s))) as [c|]; simpl.
  - destruct Hinv as [-> _]. split; [discriminate | reflexivity].
  - split; [discriminate | intros H; now contradiction H].
Qed.

(** X18.  After [update_api_key(key)] the backend is available exactly
    when [key] is not empty and the client could be built; when it is
    not, the next [transcribe] raises the unavailable exception without
    a request. *)
Theorem update_api_key_availability (key : string) (constructed : bool)
        (path : string) (s : BMachine Fields) :
  let s' := with_self (update_api_key key constructed) s in
  is_available (self s') = negb (key =? "")%string && constructed /\
  ((key = "" \/ constructed = false) ->
     OpenAI.transcribe path s' = (Raise unavailable, s')).
Proof.
  cbv zeta.
  assert (Hav : is_available (self (with_self (update_api_key key constructed) s))
                = negb (key =? "")%string && constructed).
  { unfold is_available, update_api_key, initialize_client. simpl.
    destruct (key =? "")%string, constructed; reflexivity. }
  split; [exact Hav|].
  intros Hbad. apply transcribe_unavailable. rewrite Hav.
  destruct Hbad as [->| ->]; [reflexivity | apply andb_false_r].
Qed.

(** X19.  [transcribe] on an available backend sends exactly one
    request, for the given file, with [is_transcribing] set, under the
    model name of the current model type: ["gpt-4o-transcribe"] for
    ["api_gpt4o"], ["gpt-4o-mini-transcribe"] for ["api_gpt4o_mini"] and
    ["whisper-1"] for every other model type.  A model type set with
    [change_model_type] is the one the next request uses, and it does
    not change availability. *)
Theorem transcribe_sends_one_request (model path : string)
        (s : BMachine Fields) :
  is_available (self s) = true ->
  let s' := with_self (change_model_type model) s in
  let name := if (model =? "api_gpt4o")%string then "gpt-4o-transcribe"
              else if (model =? "api_gpt4o_mini")%string
                   then "gpt-4o-mini-transcribe" else "whisper-1" in
  is_available (self s') = true /\
  calls (snd (OpenAI.transcribe path s'))
    = calls s ++ [ApiRequest name path true
                    (api_response (fst (api_create name path (world s))))].
Proof.
  intros Hav. cbv zeta.
  assert (Hav' : is_available (self (with_self (change_model_type model) s))
                 = true) by exact Hav.
  split; [exact Hav'|].
  rewrite (transcribe_available path _ Hav').
  match goal with
  | |- context [request ?n path ?st] =>
      destruct (request_effect n path st) as (_ & Hcall & _);
      destruct (request n path st) as [[r|e] s1]
  end; simpl in Hcall.
  - destruct (should_cancel (self s1)); exact Hcall.
  - exact Hcall.
Qed.

End OpenAIDiscipline.

(** ** Instances *)

(** The second of three chunks fails: the default and the OpenAI
    [transcribe_chunks] raise that failure. *)
Lemma default_first_failure_witness :
  fst (Base.transcribe_chunks (DemoFaults.picky DemoFaults.on_c2 DemoFaults.never)
         ["c1"; "c2"; "c3"]
         (DemoFaults.start DemoFaults.on_c2 DemoFaults.never (Base.init tt)))
    = Raise DemoFaults.refused.
Proof.
  pose (T := DemoFaults.picky DemoFaults.on_c2 DemoFaults.never).
  pose (s := DemoFaults.start DemoFaults.on_c2 DemoFaults.never (Base.init tt)).
  apply (@default_first_failure
           (DemoFaults.studio DemoFaults.on_c2 DemoFaults.never) unit T
           ["c1"] ["c3"] "c2" ["c1"] DemoFaults.refused s
           (snd (default_loop T ["c1"] [] s)));
    reflexivity.
Defined.

Lemma openai_first_failure_witness :
  fst (OpenAI.transcribe_chunks ["c1"; "c2"; "c3"]
         (DemoFaults.start DemoFaults.on_c2 DemoFaults.never Demo.ready))
    = Raise DemoFaults.refused.
Proof.
  pose (s := DemoFaults.start DemoFaults.on_c2 DemoFaults.never Demo.ready).
  apply (@openai_first_failure
           (DemoFaults.studio DemoFaults.on_c2 DemoFaults.never)
           ["c1"] ["c3"] "c2" ["c1"] DemoFaults.refused s
           (snd (OpenAI.chunk_loop "whisper-1" ["c1"] [] (OpenAI.entered s))));
    reflexivity.
Defined.

(** A cancel requested before the call starts is lost. *)
Lemma stale_flags_ignored_witness :
  OpenAI.transcribe "a.wav"
    (with_self (with_flags false true) (Demo.start Demo.never Demo.ready))
  = OpenAI.transcribe "a.wav" (Demo.start Demo.never Demo.ready).
Proof.
  apply (@stale_flags_ignored (Demo.studio Demo.never) false true "a.wav" []
           (Demo.start Demo.never Demo.ready)).
  reflexivity.
Defined.

(** Cancel pressed during the second and last request: the text is
    returned all the same and the flag stays set. *)
Lemma cancel_during_last_request_witness :
  let s := Demo.start Demo.during_c2 Demo.ready in
  fst (OpenAI.transcribe_chunks ["c1"; "c2"] s) = Ok "c1 c2" /\
  should_cancel (self (snd (OpenAI.transcribe_chunks ["c1"; "c2"] s))) = true.
Proof.
  cbv zeta.
  pose (s := Demo.start Demo.during_c2 Demo.ready).
  destruct (@cancel_during_last_request (Demo.studio Demo.during_c2)
              ["c1"] "c2" ["c1"] " c2 " s
              (snd (OpenAI.chunk_loop "whisper-1" ["c1"] [] (OpenAI.entered s)))
              eq_refl eq_refl eq_refl eq_refl) as (H1 & H2 & _).
  split; [exact H1 | exact H2].
Defined.

Lemma empty_chunk_list_witness :
  fst (OpenAI.transcribe_chunks [] (Demo.start Demo.never Demo.ready))
    = Ok "".
Proof.
  apply (proj2 (@empty_chunk_list (Demo.studio Demo.never))
               (Demo.start Demo.never Demo.ready)).
  reflexivity.
Defined.

Lemma reachable_client_matches_key_witness :
  client_matches_key Demo.ready.
Proof.
  apply (@reachable_client_matches_key (Demo.studio Demo.never)
           (Demo.start Demo.never Demo.ready)).
  apply (@OpenAI.reach_init (Demo.studio Demo.never)
           "api_whisper" (Some "sk-demo") true tt).
Defined.

(** Re-keying with the empty string makes the backend unavailable. *)
Lemma update_api_key_availability_witness :
  let s := with_self (OpenAI.update_api_key "" true)
                     (Demo.start Demo.never Demo.ready) in
  OpenAI.transcribe "a.wav" s = (Raise OpenAI.unavailable, s).
Proof.
  cbv zeta.
  apply (proj2 (@update_api_key_availability (Demo.studio Demo.never)
                  "" true "a.wav" (Demo.start Demo.never Demo.ready))).
  left. reflexivity.
Defined.

Lemma transcribe_sends_one_request_witness :
  calls (snd (OpenAI.transcribe "a.wav"
                (with_self (OpenAI.change_model_type "api_gpt4o")
                           (Demo.start Demo.never Demo.ready))))
  = [ApiRequest "gpt-4o-transcribe" "a.wav" true (Ok " a.wav ")].
Proof.
  apply (proj2 (@transcribe_sends_one_request (Demo.studio Demo.never)
                  "api_gpt4o" "a.wav" (Demo.start Demo.never Demo.ready)
                  eq_refl)).
Defined.

End BackendCallFacts.

(* ================================================================== *)
(** * Facts about jobs and their entry points *)
(* ================================================================== *)

Module JobFacts.
Import PyStr Py Env Base PyObj MainWindow UiState WorkflowFacts.
Local Open Scope py_scope.

Lemma uneventful_app (xs ys : list Event) :
  uneventful xs -> uneventful ys -> uneventful (xs ++ ys).
Proof.
  unfold uneventful. intros Hx Hy. now rewrite forallb_app, Hx, Hy.
Qed.

Lemma uneventful_backend_calls (cs : list Call) :
  uneventful (map BackendCall cs).
Proof. unfold uneventful. induction cs; simpl; auto. Qed.

Lemma uneventful_status_updates (messages : list string) :
  uneventful (map (fun m => After (UpdateStatus m)) messages).
Proof. unfold uneventful. induction messages; simpl; auto. Qed.

(** Both handlers that end a job leave the buttons alike. *)
Lemma terminal_callback_buttons (cb : Callback) (ws : Widgets) :
  is_terminal (After cb) = true ->
  apply_actions (run_callback cb) ws
    = {| cancel_button := DISABLED; start_button := NORMAL;
         stop_button := stop_button ws; open_file_button := NORMAL |}.
Proof. destruct cb; simpl; intros H; try discriminate; reflexivity. Qed.

Section Jobs.
Context {E : External} {X : Type}.

Lemma quiet_ret {A : Type} (a : A) :
  appends_uneventful (ret a : M (Machine X) A).
Proof.
  intros s. exists []. simpl. rewrite app_nil_r. split; reflexivity.
Qed.

Lemma quiet_status (status : string) :
  appends_uneventful (after (X := X) (UpdateStatus status)).
Proof. intros s. exists [After (UpdateStatus status)]. split; reflexivity. Qed.

Lemma quiet_on_backend {A : Type} (m : M (BMachine X) A) :
  appends_uneventful (on_backend m).
Proof.
  intros s. unfold on_backend. destruct (m _) as [r b]. simpl.
  eexists. split; [reflexivity | apply uneventful_backend_calls].
Qed.

Lemma quiet_split_audio (audio_file : string) :
  appends_uneventful (split_audio (X := X) audio_file).
Proof.
  intros s. unfold split_audio.
  destruct (split_audio_file audio_file (outside s)) as [[messages r] w].
  simpl. eexists. split; [reflexivity|].
  apply (uneventful_status_updates messages).
Qed.

Lemma quiet_bind {A B : Type} (m : M (Machine X) A)
      (k : A -> M (Machine X) B) :
  appends_uneventful m -> (forall a, appends_uneventful (k a)) ->
  appends_uneventful (bind m k).
Proof.
  intros Hm Hk s. unfold bind.
  destruct (Hm s) as (new & Ht & Hq).
  destruct (m s) as [[a|e] s1]; simpl in *.
  - destruct (Hk a s1) as (new' & Ht' & Hq').
    exists (new ++ new'). split; [|now apply uneventful_app].
    now rewrite Ht', Ht, <- app_assoc.
  - exists new. auto.
Qed.

Lemma quiet_fallback_loop (be : BackendObject X) (total i : nat)
      (chunks acc : list string) :
  appends_uneventful (fallback_loop be total i chunks acc).
Proof.
  revert i acc. induction chunks as [|c chunks IH]; intros i acc.
  - apply quiet_ret.
  - cbn [fallback_loop]. apply quiet_bind; [apply quiet_status|].
    intros _. apply quiet_bind; [apply quiet_on_backend|].
    intros t. apply IH.
Qed.

Lemma quiet_transcribe_step (be : BackendObject X) (chunks : list string) :
  appends_uneventful (transcribe_step be chunks).
Proof.
  unfold transcribe_step, batch_path, fallback_path.
  destruct (hasattr (py_object be) "transcribe_chunks").
  - apply quiet_bind; [apply quiet_status|].
    intros _. apply quiet_on_backend.
  - apply quiet_bind; [apply quiet_fallback_loop|].
    intros ts. apply quiet_bind; [apply quiet_status|].
    intros _. apply quiet_ret.
Qed.

(** The [try] block of the workflow either raises after an uneventful
    stretch or ends by scheduling the completion handler. *)
Lemma workflow_body_shape (be : BackendObject X) (audio_file : string)
      (s : Machine X) :
  exists pre,
    uneventful pre /\
    match workflow_body (transcribe_step be) audio_file s with
    | (Ok _, s1) =>
        exists text,
          trace s1 = trace s ++ pre ++ [After (OnTranscriptionComplete text)]
    | (Raise _, s1) => trace s1 = trace s ++ pre
    end.
Proof.
  unfold workflow_body, bind. unfold after at 1, modify.
  set (s0 := emit [After (UpdateStatus "Processing large audio file...")] s).
  destruct (quiet_split_audio audio_file s0) as (new & Ht & Hq).
  destruct (split_audio audio_file s0) as [[[|c chunks]|e] s1]; simpl in Ht.
  - exists (After (UpdateStatus "Processing large audio file...") :: new).
    split; [exact Hq|]. simpl. rewrite Ht. unfold s0. simpl.
    now rewrite <- app_assoc.
  - destruct (quiet_transcribe_step be (c :: chunks) s1) as (new' & Ht' & Hq').
    destruct (transcribe_step be (c :: chunks) s1) as [[text|e] s2];
      simpl in Ht';
      exists ((After (UpdateStatus "Processing large audio file...") :: new)
                ++ new');
      (split; [apply uneventful_app; assumption|]).
    + exists text. unfold after, modify. simpl.
      rewrite Ht', Ht. unfold s0. simpl. now rewrite <- !app_assoc.
    + rewrite Ht', Ht. unfold s0. simpl. now rewrite <- !app_assoc.
  - exists (After (UpdateStatus "Processing large audio file...") :: new).
    split; [exact Hq|]. rewrite Ht. unfold s0. simpl.
    now rewrite <- app_assoc.
Qed.

(** X20.  Every large-file job, however splitting, transcription and
    cleanup go, schedules exactly one job-ending callback,
    [_on_transcription_complete] or [_on_transcription_error], after
    everything else it schedules and just before the one cleanup; when
    the Tk thread runs that callback the Cancel button ends disabled and
    the Start and Open buttons enabled, the Stop button untouched. *)
Theorem job_ends_once (be : BackendObject X) (audio_file : string)
        (s : Machine X) :
  exists pre cb,
    trace (snd (transcribe_large_audio_from_file be audio_file s))
      = trace s ++ pre ++ [After cb; CleanupTempFiles] /\
    uneventful pre /\
    is_terminal (After cb) = true /\
    forall ws,
      apply_actions (run_callback cb) ws
        = {| cancel_button := DISABLED; start_button := NORMAL;
             stop_button := stop_button ws; open_file_button := NORMAL |}.
Proof.
  unfold transcribe_large_audio_from_file, workflow, try_finally, try_except.
  destruct (workflow_body_shape be audio_file s) as (pre & Hq & Hshape).
  destruct (workflow_body (transcribe_step be) audio_file s) as [[[]|e] s1].
  - destruct Hshape as (text & Ht).
    exists pre, (OnTranscriptionComplete text).
    split; [|split; [exact Hq|split; [reflexivity|]]].
    + unfold cleanup. destruct (cleanup_temp_files (outside s1)) as [[[]|e] w];
        simpl; rewrite Ht, <- !app_assoc; reflexivity.
    + intros ws. now apply terminal_callback_buttons.
  - exists pre, (OnTranscriptionError (exn_msg e)).
    split; [|split; [exact Hq|split; [reflexivity|]]].
    + unfold after, modify, cleanup. simpl.
      destruct (cleanup_temp_files (outside s1)) as [[[]|e'] w];
        simpl; rewrite Hshape, <- !app_assoc; reflexivity.
    + intros ws. now apply terminal_callback_buttons.
Qed.

(** X21.  A large-file job whose splitting yields chunks and whose
    step 2 returns [text] ends by scheduling the completion handler
    with that very text, then cleans up; the handler displays the text
    and pastes it.  A failing cleanup changes nothing of this. *)
Theorem job_success_pastes_text (be : BackendObject X) (audio_file : string)
        (chunk_files : list string) (text : string) (s s1 s2 : Machine X) :
  split_audio audio_file
    (emit [After (UpdateStatus "Processing large audio file...")] s)
    = (Ok chunk_files, s1) ->
  chunk_files <> [] ->
  transcribe_step be chunk_files s1 = (Ok text, s2) ->
  trace (snd (transcribe_large_audio_from_file be audio_file s))
    = trace s2 ++ [After (OnTranscriptionComplete text); CleanupTempFiles] /\
  In (PasteText text) (run_callback (OnTranscriptionComplete text)) /\
  In (ShowTranscription ("Transcription: " ++ text))
     (run_callback (OnTranscriptionComplete text)) /\
  error_dialogs (run_callback (OnTranscriptionComplete text)) = [].
Proof.
  intros Hsplit Hne Hstep. split; [|simpl; auto].
  unfold transcribe_large_audio_from_file, workflow, try_finally, try_except,
    workflow_body, bind.
  unfold after at 1, modify. rewrite Hsplit.
  destruct chunk_files as [|c chunks]; [contradiction|].
  rewrite Hstep. unfold after, modify, cleanup. simpl.
  destruct (cleanup_temp_files _) as [[[]|e'] w]; simpl;
    now rewrite <- app_assoc.
Qed.

(** X22.  When [split_audio_file] raises, or returns no chunk, the
    large-file job never touches the backend: it schedules the progress
    messages of the splitter, then the error handler, with the text of
    the exception or with "Failed to split audio file into chunks", and
    cleans up. *)
Theorem split_failure_skips_backend (be : BackendObject X)
        (audio_file : string) (messages : list string)
        (outcome : result (list string)) (w : World) (s : Machine X) :
  split_audio_file audio_file (outside s) = ((messages, outcome), w) ->
  (outcome = Ok [] \/ exists e, outcome = Raise e) ->
  let run := transcribe_large_audio_from_file be audio_file s in
  let message := match outcome with
                 | Raise e => exn_msg e
                 | Ok _ => "Failed to split audio file into chunks"
                 end in
  trace (snd run)
    = trace s
        ++ After (UpdateStatus "Processing large audio file...")
        :: SplitAudio audio_file
        :: map (fun m => After (UpdateStatus m)) messages
        ++ [After (OnTranscriptionError message); CleanupTempFiles] /\
  backend (snd run) = backend s.
Proof.
  intros Hsplit Hbad. cbv zeta.
  unfold transcribe_large_audio_from_file, workflow, try_finally, try_except,
    workflow_body, bind, after, modify, split_audio, cleanup, raise.
  cbn [emit outside backend trace]. rewrite Hsplit.
  destruct Hbad as [->|[e ->]]; simpl;
    destruct (cleanup_temp_files w) as [[[]|e'] w']; simpl;
    rewrite <- !app_assoc; simpl; rewrite <- ?app_assoc; auto.
Qed.

(** X23.  A job on a file that needs no splitting reports
    "Transcribing...", calls [transcribe] once on the file and
    schedules the completion handler with the text returned, or the
    error handler with the text of the exception raised; it never
    invokes [cleanup_temp_files] and never raises. *)
Theorem direct_job_outcome (be : BackendObject X) (audio_file : string)
        (s : Machine X) :
  let call := bound_transcribe be audio_file
                {| self := backend s; world := outside s; calls := [] |} in
  let run := transcribe_audio_from_file be audio_file s in
  fst run = Ok tt /\
  trace (snd run)
    = trace s
        ++ Now (UpdateStatus "Transcribing...")
        :: map BackendCall (calls (snd call))
        ++ [After (match fst call with
                   | Ok text => OnTranscriptionComplete text
                   | Raise e => OnTranscriptionError (exn_msg e)
                   end)] /\
  cleanups (trace (snd run)) = cleanups (trace s).
Proof.
  cbv zeta.
  unfold transcribe_audio_from_file, try_except, bind, now, after, modify,
    on_backend.
  cbn [emit outside backend trace].
  destruct (bound_transcribe be audio_file _) as [[text|e] b]; simpl;
    (split; [reflexivity|]);
    (split; [now rewrite <- !app_assoc|]);
    rewrite !cleanups_app, cleanups_backend_calls; simpl;
    unfold cleanups; simpl; lia.
Qed.

End Jobs.

(** ** Entry points *)

Lemma ltb_100 (n : nat) : (n <? 100)%nat = negb (100 <=? n)%nat.
Proof. apply Nat.ltb_antisym. Qed.

(** X24.  [stop_recording] submits a job exactly when the recorder
    stopped, has data and saved it, the recorded file exists and has at
    least 100 bytes, and [check_file_size] returned; [open_audio_file]
    does when a file was chosen that exists, has at least 100 bytes and
    passed [check_file_size].  Each submits one job at most, the
    large-file job when the file needs splitting and the direct one
    otherwise: a file under 100 bytes never reaches a backend. *)
Theorem jobs_submitted (recorded_audio_file : string) (p : RecorderProbe)
        (fp : FileProbe) :
  snd (stop_recording recorded_audio_file p) =
    (if stopped p && has_recording_data p && saved p && recorded_exists p
        && (100 <=? recorded_size p)%nat
     then match recorded_check p with
          | Ok (needs_splitting, _) =>
              [if needs_splitting then LargeJob recorded_audio_file
               else DirectJob recorded_audio_file]
          | Raise _ => []
          end
     else []) /\
  snd (open_audio_file fp) =
    (if negb (filename fp =? "")%string && chosen_exists fp
        && (100 <=? chosen_size fp)%nat
     then match chosen_check fp with
          | Ok (needs_splitting, _) =>
              [if needs_splitting then LargeJob (filename fp)
               else DirectJob (filename fp)]
          | Raise _ => []
          end
     else []).
Proof.
  split.
  - unfold stop_recording. rewrite ltb_100.
    destruct (stopped p), (has_recording_data p), (saved p),
      (recorded_exists p), (100 <=? recorded_size p)%nat; simpl; try reflexivity.
    destruct (recorded_check p) as [[[] mb]|e]; [| |reflexivity];
      destruct (duration p); reflexivity.
  - unfold open_audio_file. rewrite ltb_100.
    destruct (filename fp =? "")%string, (chosen_exists fp),
      (100 <=? chosen_size fp)%nat; simpl; try reflexivity.
    destruct (chosen_check fp) as [[[] mb]|e]; reflexivity.
Qed.

(** X25.  The buttons after [stop_recording].  When the recorder
    refuses to stop, the handler leaves Start and Stop disabled, shows
    no dialog and submits nothing.  When the recorder stopped and no
    job is submitted, exactly one error dialog is shown and Start ends
    enabled.  When a job is submitted and the duration is logged, no
    dialog is shown and Start and Stop stay disabled until the job
    ends. *)
Theorem stop_recording_buttons (recorded_audio_file : string)
        (p : RecorderProbe) (ws : Widgets) :
  let actions := fst (stop_recording recorded_audio_file p) in
  let jobs := snd (stop_recording recorded_audio_file p) in
  let buttons := apply_actions actions ws in
  (stopped p = false ->
     jobs = [] /\ error_dialogs actions = [] /\
     start_button buttons = DISABLED /\ stop_button buttons = DISABLED) /\
  (stopped p = true -> jobs = [] ->
     start_button buttons = NORMAL /\ stop_button buttons = DISABLED /\
     exists message,
       error_dialogs actions
         = [ShowError "Error" ("Transcription failed: " ++ message)]) /\
  (jobs <> [] -> duration p = Ok tt ->
     error_dialogs actions = [] /\
     start_button buttons = DISABLED /\ stop_button buttons = DISABLED).
Proof.
  cbv zeta. unfold stop_recording.
  destruct (stopped p); simpl.
  2:{ split; [auto|]. split; [discriminate|]. intros H. now contradiction H. }
  split; [discriminate|].
  destruct (has_recording_data p); simpl.
  2:{ split; [eauto|]. intros H. now contradiction H. }
  destruct (saved p); simpl.
  2:{ split; [eauto|]. intros H. now contradiction H. }
  destruct (recorded_exists p); simpl.
  2:{ split; [eauto|]. intros H. now contradiction H. }
  destruct (recorded_size p <? 100)%nat; simpl.
  { split; [eauto|]. intros H. now contradiction H. }
  destruct (recorded_check p) as [[[] mb]|e]; simpl.
  - split.
    + intros _ H. destruct (duration p); discriminate.
    + intros _ Hd. rewrite Hd. simpl. auto.
  - split.
    + intros _ H. destruct (duration p); discriminate.
    + intros _ Hd. rewrite Hd. simpl. auto.
  - split; [eauto|]. intros H. now contradiction H.
Qed.

(** X26.  The buttons after [open_audio_file].  A dismissed file
    chooser does nothing at all.  When no job is submitted, at most one
    error dialog is shown and the Start and Open buttons are not left
    disabled if they were enabled.  When a job is submitted no dialog
    is shown, Start, Stop and Open are disabled and Cancel is
    enabled. *)
Theorem open_audio_file_buttons (fp : FileProbe) (ws : Widgets) :
  let actions := fst (open_audio_file fp) in
  let jobs := snd (open_audio_file fp) in
  let buttons := apply_actions actions ws in
  (filename fp = "" -> actions = [] /\ jobs = []) /\
  (jobs = [] ->
     length (error_dialogs actions) <= 1 /\
     (start_button ws = NORMAL -> start_button buttons = NORMAL) /\
     (open_file_button ws = NORMAL -> open_file_button buttons = NORMAL)) /\
  (jobs <> [] ->
     error_dialogs actions = [] /\
     buttons = {| cancel_button := NORMAL; start_button := DISABLED;
                  stop_button := DISABLED; open_file_button := DISABLED |}).
Proof.
  cbv zeta. unfold open_audio_file.
  destruct (String.eqb_spec (filename fp) "") as [Hempty|Hname]; simpl.
  { split; [auto|]. split; [auto|]. intros H. now contradiction H. }
  split; [intros H; contradiction|].
  destruct (chosen_exists fp); simpl.
  2:{ split; [auto|]. intros H. now contradiction H. }
  destruct (chosen_size fp <? 100)%nat; simpl.
  { split; [auto|]. intros H. now contradiction H. }
  destruct (chosen_check fp) as [[[] mb]|e]; simpl.
  - split; [discriminate | auto].
  - split; [discriminate | auto].
  - split; [auto|]. intros H. now contradiction H.
Qed.

(** ** Instances *)

(** Three chunks transcribed without incident. *)
Lemma job_success_pastes_text_witness :
  In (After (OnTranscriptionComplete "c1 c2 c3"))
     (trace (snd (transcribe_large_audio_from_file
                    (DemoUI.echo_backend Demo.never) "long.wav"
                    (DemoUI.idle Demo.never)))).
Proof.
  pose (be := DemoUI.echo_backend Demo.never).
  pose (s := DemoUI.idle Demo.never).
  pose (s1 := snd (split_audio "long.wav"
             (emit [After (UpdateStatus "Processing large audio file...")] s))).
  pose (s2 := snd (transcribe_step be Demo.three_chunks s1)).
  pose proof (proj1 (@job_success_pastes_text (Demo.studio Demo.never) unit be
                       "long.wav" Demo.three_chunks "c1 c2 c3" s s1 s2
                       eq_refl ltac:(discriminate) eq_refl)) as H.
  unfold be, s in H. rewrite H.
  apply in_or_app. right. left. reflexivity.
Defined.

(** A file the splitter cannot decode. *)
Lemma split_failure_skips_backend_witness :
  trace (snd (transcribe_large_audio_from_file
                (DemoFaults.picky_backend DemoFaults.never DemoFaults.never)
                "broken.wav"
                (DemoFaults.idle DemoFaults.never DemoFaults.never)))
  = [After (UpdateStatus "Processing large audio file...");
     SplitAudio "broken.wav";
     After (UpdateStatus "Loading audio");
     After (OnTranscriptionError "Could not decode audio");
     CleanupTempFiles].
Proof.
  apply (proj1 (@split_failure_skips_backend
                  (DemoFaults.studio DemoFaults.never DemoFaults.never) unit
                  (DemoFaults.picky_backend DemoFaults.never DemoFaults.never)
                  "broken.wav" ["Loading audio"]
                  (Raise DemoFaults.undecodable) tt
                  (DemoFaults.idle DemoFaults.never DemoFaults.never)
                  eq_refl
                  (or_intror (ex_intro _ DemoFaults.undecodable eq_refl)))).
Defined.

(** Instances for the two entry points. *)
Lemma stop_recording_buttons_witness :
  let p := {| stopped := false; has_recording_data := true; saved := true;
              recorded_exists := true; recorded_size := 4000;
              recorded_check := Ok (false, "0.0"); duration := Ok tt |} in
  start_button (apply_actions (fst (stop_recording "rec.wav" p)) all_normal)
    = DISABLED.
Proof.
  cbv zeta.
  apply (proj1 (stop_recording_buttons "rec.wav"
                  {| stopped := false; has_recording_data := true;
                     saved := true; recorded_exists := true;
                     recorded_size := 4000;
                     recorded_check := Ok (false, "0.0");
                     duration := Ok tt |} all_normal)).
  reflexivity.
Defined.

Lemma open_audio_file_buttons_witness :
  let fp := {| filename := "talk.mp3"; chosen_exists := true;
               chosen_size := 50; chosen_check := Ok (false, "0.0") |} in
  start_button (apply_actions (fst (open_audio_file fp)) all_normal) = NORMAL.
Proof.
  cbv zeta.
  apply (proj1 (proj2 (open_audio_file_buttons
                         {| filename := "talk.mp3"; chosen_exists := true;
                            chosen_size := 50;
                            chosen_check := Ok (false, "0.0") |}
                         all_normal))); reflexivity.
Defined.

End JobFacts.

(* ================================================================== *)
(** * Facts about the status overlay *)
(* ================================================================== *)

Module OverlayFacts.
Import PyStr Py MainWindow UiState StatusOverlay.

Lemma contains_prefix (pattern s : string) :
  String.prefix pattern s = true -> contains pattern s = true.
Proof. intros H. destruct s; simpl in *; now rewrite H. Qed.

(** A pattern whose first character does not occur in [s] is not
    in [s]. *)
Lemma contains_lacking (c : ascii) (pattern s : string) :
  lacks c s = true -> contains (String c pattern) s = false.
Proof.
  induction s as [|x rest IH]; simpl; [reflexivity|].
  intros H. apply andb_true_iff in H. destruct H as [Hx Hrest].
  rewrite (IH Hrest), orb_false_r.
  destruct (ascii_dec c x) as [->|_]; [|reflexivity].
  now rewrite Ascii.eqb_refl in Hx.
Qed.

Lemma lacks_append (c : ascii) (s1 s2 : string) :
  lacks c (s1 ++ s2) = lacks c s1 && lacks c s2.
Proof.
  induction s1 as [|x s1 IH]; simpl; [reflexivity|].
  now rewrite IH, andb_assoc.
Qed.

(** Decimal numerals hold digits only. *)
Lemma lacks_numeral (c : ascii) (d : Decimal.uint) :
  (nat_of_ascii c < 48 \/ 57 < nat_of_ascii c) ->
  lacks c (NilEmpty.string_of_uint d) = true.
Proof.
  intros Hc.
  induction d; cbn [NilEmpty.string_of_uint lacks]; [reflexivity|..];
    rewrite IHd, andb_true_r; apply negb_true_iff, Ascii.eqb_neq;
    intros <-; vm_compute in Hc; lia.
Qed.

Lemma lacks_str_of_nat (c : ascii) (n : nat) :
  (nat_of_ascii c < 48 \/ 57 < nat_of_ascii c) ->
  lacks c (str_of_nat n) = true.
Proof. apply lacks_numeral. Qed.

Lemma R_is_no_digit : nat_of_ascii "R" < 48 \/ 57 < nat_of_ascii "R".
Proof. right. cbn. lia. Qed.

Lemma P_is_no_digit : nat_of_ascii "P" < 48 \/ 57 < nat_of_ascii "P".
Proof. right. cbn. lia. Qed.

(** A status that starts with "Transcribing" and holds neither ['R'] nor
    ['P'] shows the transcribing overlay. *)
Lemma transcribing_overlay (has_label : bool) (rest : string) :
  lacks "R" rest = true -> lacks "P" rest = true ->
  overlay_after (update_status has_label ("Transcribing" ++ rest) true)
    = Some "transcribing"%string.
Proof.
  intros HR HP. unfold update_status.
  rewrite (contains_lacking "R" "ecording" ("Transcribing" ++ rest)),
          (contains_lacking "P" "rocessing" ("Transcribing" ++ rest)),
          (contains_prefix "Transcribing" ("Transcribing" ++ rest)).
  - destruct has_label; reflexivity.
  - simpl. destruct rest; reflexivity.
  - rewrite lacks_append, HP. reflexivity.
  - rewrite lacks_append, HR. reflexivity.
Qed.

(** X28.  The status texts the large-file workflow builds keep the
    overlay on screen: for every chunk count and every chunk index,
    "Transcribing n chunks..." and "Transcribing chunk i/n..." show the
    transcribing overlay, "Processing large audio file..." shows the
    processing one, and so does "Processing large file (s MB)..." for
    every size text [s] without an ['R'].  "Combining transcriptions..."
    matches none of the three words and hides the overlay. *)
Theorem workflow_statuses_overlay (has_label : bool) (n i : nat)
        (size_mb : string) :
  overlay_after
    (update_status has_label
       ("Transcribing " ++ str_of_nat n ++ " chunks...") true)
    = Some "transcribing"%string /\
  overlay_after
    (update_status has_label
       ("Transcribing chunk " ++ str_of_nat i ++ "/" ++ str_of_nat n ++ "...")
       true)
    = Some "transcribing"%string /\
  overlay_after
    (update_status has_label "Processing large audio file..." true)
    = Some "processing"%string /\
  (lacks "R" size_mb = true ->
   overlay_after
     (update_status has_label (processing_large_file size_mb) true)
     = Some "processing"%string) /\
  overlay_after
    (update_status has_label "Combining transcriptions..." true) = None.
Proof.
  assert (HR : forall k, lacks "R" (str_of_nat k) = true)
    by (intros k; apply lacks_str_of_nat, R_is_no_digit).
  assert (HP : forall k, lacks "P" (str_of_nat k) = true)
    by (intros k; apply lacks_str_of_nat, P_is_no_digit).
  split; [|split; [|split; [|split]]].
  - apply (transcribing_overlay has_label
             (" " ++ str_of_nat n ++ " chunks..."));
      cbn [lacks append]; rewrite lacks_append, ?HR, ?HP; reflexivity.
  - apply (transcribing_overlay has_label
             (" chunk " ++ str_of_nat i ++ "/" ++ str_of_nat n ++ "..."));
      cbn [lacks append]; rewrite lacks_append, ?HR, ?HP;
      cbn [lacks append]; rewrite lacks_append, ?HR, ?HP; reflexivity.
  - destruct has_label; reflexivity.
  - intros Hsize. unfold update_status, processing_large_file.
    rewrite (contains_lacking "R" "ecording").
    + rewrite (contains_prefix "Processing") by reflexivity.
      destruct has_label; reflexivity.
    + cbn [lacks append]. rewrite lacks_append, Hsize. reflexivity.
  - destruct has_label; reflexivity.
Qed.

(** An instance: a size printed with one decimal. *)
Lemma workflow_statuses_overlay_witness :
  overlay_after (update_status true (processing_large_file "32.4") true)
    = Some "processing"%string.
Proof.
  apply (proj1 (proj2 (proj2 (proj2
           (workflow_statuses_overlay true 0 0 "32.4"))))).
  reflexivity.
Defined.

End OverlayFacts.

(* ================================================================== *)
(** * Facts about runs of key events and about the cancel action *)
(* ================================================================== *)

Module RunFacts.
Import PyStr Py PyDict Hotkey HotkeyEvents HotkeyRuns HotkeyFacts.
Import Base MainWindow UiState.

(** X9.  A burst of presses of the record-toggle key, on an enabled
    manager with the callback set, starts [on_record_toggle] once for
    each press the debounce guard lets through and does nothing else:
    the number of starts is [count_triggers] of the press times, and
    the stored last-trigger time ends as the guard leaves it. *)
Theorem burst_starts_counted (debounce_ms : Q) (kb : Keyboard)
        (ev : KeyboardEvent) (times : list Q) (m : Manager)
        (enable_disable record_toggle : string) (target : callback) :
  event_type ev = KEY_DOWN ->
  get (hotkeys m) "enable_disable" = Some enable_disable ->
  get (hotkeys m) "record_toggle" = Some record_toggle ->
  matches_hotkey kb (key ev) enable_disable = false ->
  matches_hotkey kb (key ev) record_toggle = true ->
  program_enabled (state m) = true ->
  on_record_toggle m = Some target ->
  snd (handle_presses debounce_ms kb ev times m)
    = repeat (ThreadStart target) (count_triggers debounce_ms times (state m)).
Proof.
  intros Hdown. revert m.
  induction times as [|t times IH]; intros m Hed Hrt Hno Hyes Hon Hcb;
    [reflexivity|].
  cbn [handle_presses count_triggers].
  unfold handle_keyboard_event, getitem.
  rewrite Hdown, Hed, Hno, Hon, Hrt, Hyes, Hcb. cbn [negb].
  destruct (should_trigger_record_toggle debounce_ms t (state m))
    as [fire st] eqn:Hguard.
  assert (Hst : program_enabled st = true).
  { unfold should_trigger_record_toggle in Hguard.
    destruct (Qgtb _ _); inversion Hguard; subst; exact Hon. }
  specialize (IH (with_state st m) Hed Hrt Hno Hyes Hst Hcb).
  destruct (handle_presses debounce_ms kb ev times (with_state st m))
    as [m'' later].
  simpl in IH. simpl. rewrite IH.
  destruct fire; reflexivity.
Qed.

(** An instance: three presses of ["*"], the second 0.2 s after the
    first. *)
Lemma burst_starts_counted_witness :
  snd (handle_presses 500 nothing_held (key_down "*")
                      [1000; 5001 # 5; 1001]%Q sample_manager)
  = [ThreadStart 1; ThreadStart 1].
Proof.
  apply (@burst_starts_counted 500 nothing_held (key_down "*")
           [1000; 5001 # 5; 1001]%Q sample_manager "ctrl+alt+*" "*" 1);
    reflexivity.
Defined.

(** X27.  The cancel action.  [MainWindow.cancel_transcription] raises
    the backend's cancel flag only when nothing is being recorded and
    the backend is transcribing; a recording in progress takes
    precedence and an idle backend is left untouched.  In every case it
    shows exactly one cancelling overlay and no error dialog, and ends
    with Cancel disabled and Start and Open enabled. *)
Theorem cancel_action (X : Type) (is_recording : bool) (b : Backend X)
        (ws : Widgets) :
  let b' := fst (MainWindow.cancel_transcription is_recording b) in
  let actions := snd (MainWindow.cancel_transcription is_recording b) in
  let buttons := apply_actions actions ws in
  b' = (if negb is_recording && is_transcribing b
        then Base.cancel_transcription b else b) /\
  length (filter is_canceling actions) = 1 /\
  error_dialogs actions = [] /\
  cancel_button buttons = DISABLED /\
  start_button buttons = NORMAL /\
  open_file_button buttons = NORMAL.
Proof.
  cbv zeta. unfold MainWindow.cancel_transcription.
  destruct is_recording; [|destruct (is_transcribing b)];
    simpl; repeat split; reflexivity.
Qed.

End RunFacts.

(* ================================================================== *)
(** * Facts about the matcher over Unicode text *)
(* ================================================================== *)

Module HotkeyUnicodeFacts.
Import PyStr Hotkey HotkeyUnicode HotkeyFacts.

Lemma last_map_nonempty (f : string -> string) (l : list string)
      (d d' : string) :
  l <> [] -> last (map f l) d = f (last l d').
Proof.
  induction l as [|x [|y l] IH]; intros Hne; [contradiction| reflexivity |].
  apply IH. discriminate.
Qed.

Lemma removelast_map (f : string -> string) (l : list string) :
  removelast (map f l) = map f (removelast l).
Proof.
  induction l as [|x [|y l] IH]; simpl in *; auto.
  now rewrite IH.
Qed.

(** The matcher as one boolean formula over the tokens of the
    lower-cased specification, whatever [lower] is. *)
Lemma matches_hotkey_with_formula (lower : string -> string) (kb : Keyboard)
      (ev : KeyEvent) (spec : string) :
  matches_hotkey_with lower kb ev spec =
    negb (spec =? "")%string
    && (lower (name ev) =? lowered_main_key lower spec)%string
    && forallb (fun m => Bool.eqb (kb m) (mem m (lowered_modifiers lower spec)))
               modifier_classes.
Proof.
  unfold matches_hotkey_with, lowered_main_key, lowered_modifiers.
  destruct (spec =? "")%string; [reflexivity|].
  cbv zeta.
  destruct (lower (name ev) =? last (split "+" (lower spec)) "")%string;
    [|reflexivity].
  rewrite check_modifiers_implb. cbn [forallb modifier_classes negb andb].
  destruct (mem "ctrl" _), (mem "alt" _), (mem "shift" _), (mem "win" _),
    (kb "ctrl"%string), (kb "alt"%string), (kb "shift"%string),
    (kb "win"%string); reflexivity.
Qed.

(** The matcher of the event handler is the instance at the 7-bit
    [lower], which lowers token by token. *)
Lemma matches_hotkey_is_instance :
  Hotkey.matches_hotkey = matches_hotkey_with PyStr.lower.
Proof. reflexivity. Qed.

Lemma lower_lowers_tokenwise : lowers_tokenwise PyStr.lower.
Proof. exact split_lower. Qed.

(** ** A [lower] beyond the 7-bit range that lowers token by token *)

Lemma lower_latin1_cons2 (c1 c2 : ascii) (rest : string) :
  lower_latin1 (String c1 (String c2 rest)) =
    if folds_latin1 c1 c2
    then String c1 (String (ascii_of_nat (nat_of_ascii c2 + 32))
                           (lower_latin1 rest))
    else String (lower_ascii c1) (lower_latin1 (String c2 rest)).
Proof. reflexivity. Qed.

Lemma split_cons (sep c : ascii) (rest : string) :
  split sep (String c rest) =
    if Ascii.eqb c sep then EmptyString :: split sep rest
    else match split sep rest with
         | [] => [String c EmptyString]
         | tok :: toks => String c tok :: toks
         end.
Proof. reflexivity. Qed.

Lemma folds_latin1_not_plus (c1 c2 : ascii) :
  folds_latin1 c1 c2 = true ->
  Ascii.eqb c1 "+" = false /\ Ascii.eqb c2 "+" = false /\
  Ascii.eqb (ascii_of_nat (nat_of_ascii c2 + 32)) "+" = false.
Proof.
  intros H. split; [|split].
  - destruct (Ascii.eqb_spec c1 "+") as [->|]; [discriminate H | reflexivity].
  - destruct (Ascii.eqb_spec c2 "+") as [->|]; [|reflexivity].
    unfold folds_latin1 in H. simpl in H. now rewrite andb_false_r in H.
  - unfold folds_latin1 in H. cbv zeta in H.
    apply andb_true_iff in H. destruct H as [H _].
    apply andb_true_iff in H. destruct H as [H Hhi].
    apply andb_true_iff in H. destruct H as [_ Hlo].
    destruct c2 as [[] [] [] [] [] [] [] []]; vm_compute in Hlo, Hhi |- *;
      first [reflexivity | discriminate].
Qed.

Lemma lower_latin1_tokenwise_upto (n : nat) :
  forall s, (String.length s <= n)%nat ->
            split "+" (lower_latin1 s) = map lower_latin1 (split "+" s).
Proof.
  induction n as [|n IH]; intros s Hlen.
  - destruct s; [reflexivity | simpl in Hlen; lia].
  - destruct s as [|c1 [|c2 rest]]; [reflexivity | |].
    + cbn [lower_latin1]. rewrite !split_cons, lower_ascii_plus.
      destruct (Ascii.eqb c1 "+"); reflexivity.
    + rewrite lower_latin1_cons2. destruct (folds_latin1 c1 c2) eqn:Hf.
      * destruct (folds_latin1_not_plus c1 c2 Hf) as (H1 & H2 & H3).
        rewrite (split_cons "+" c1 (String c2 rest)), H1,
          (split_cons "+" c2 rest), H2.
        rewrite (split_cons "+" c1), H1, (split_cons "+" (ascii_of_nat _)), H3.
        rewrite (IH rest) by (simpl in Hlen; lia).
        destruct (split "+" rest) as [|tok toks] eqn:Hs;
          [now destruct (@split_nonempty "+" rest)|].
        cbn [map]. rewrite lower_latin1_cons2, Hf. reflexivity.
      * rewrite (split_cons "+" (lower_ascii c1)), lower_ascii_plus.
        rewrite (IH (String c2 rest)) by (simpl in Hlen |- *; lia).
        rewrite (split_cons "+" c1 (String c2 rest)).
        destruct (Ascii.eqb c1 "+"); [reflexivity|].
        rewrite (split_cons "+" c2 rest).
        destruct (Ascii.eqb c2 "+") eqn:H2.
        { reflexivity. }
        destruct (split "+" rest) as [|tok toks] eqn:Hs;
          [now destruct (@split_nonempty "+" rest)|].
        cbn [map]. rewrite (lower_latin1_cons2 c1 c2 tok), Hf. reflexivity.
Qed.

Lemma lower_latin1_lowers_tokenwise : lowers_tokenwise lower_latin1.
Proof.
  intros s. apply (@lower_latin1_tokenwise_upto (String.length s)). lia.
Qed.

(** C1.  Whatever table [str.lower] applies.  For the empty
    specification the matcher rejects every event.  For a non-empty one
    it accepts exactly when the lower-cased key name of the event is
    the final token of the lower-cased specification and, for each of
    ctrl, alt, shift and win, the key is held if and only if the class
    is among the tokens before the final one.  When [lower] lowers a
    text token by token, as [str.lower] does, this is: the key name and
    the final token of the specification are equal once both are
    lower-cased, and each class is held if and only if it is listed, in
    any letter case, before the final token. *)
Theorem matches_hotkey_unicode_exact (lower : string -> string)
        (kb : Keyboard) (ev : KeyEvent) (spec : string) :
  (spec = ""%string -> matches_hotkey_with lower kb ev spec = false) /\
  (spec <> ""%string ->
     (matches_hotkey_with lower kb ev spec = true <->
        lower (name ev) = lowered_main_key lower spec /\
        forall m, In m modifier_classes ->
                  kb m = mem m (lowered_modifiers lower spec))) /\
  (lowers_tokenwise lower -> spec <> ""%string ->
     (matches_hotkey_with lower kb ev spec = true <->
        lower (name ev) = lower (spec_main_key spec) /\
        forall m, In m modifier_classes ->
                  kb m = spec_requires_with lower spec m)).
Proof.
  assert (Hiff : spec <> ""%string ->
     (matches_hotkey_with lower kb ev spec = true <->
        lower (name ev) = lowered_main_key lower spec /\
        forall m, In m modifier_classes ->
                  kb m = mem m (lowered_modifiers lower spec))).
  { intros Hne. rewrite matches_hotkey_with_formula.
    destruct (String.eqb_spec spec "") as [E|_]; [contradiction|].
    cbn [negb]. rewrite andb_true_l, andb_true_iff, String.eqb_eq,
      forallb_forall.
    split; intros [Hk Hm]; split; auto; intros m Hin.
    - apply eqb_prop. auto.
    - rewrite (Hm m Hin). apply eqb_reflx. }
  split; [|split; [exact Hiff|]].
  - intros ->. reflexivity.
  - intros Htok Hne. rewrite (Hiff Hne).
    unfold lowered_main_key, lowered_modifiers, spec_requires_with,
      spec_main_key, spec_modifiers.
    rewrite Htok, removelast_map,
      (@last_map_nonempty lower (split "+" spec) "" ""
                          (@split_nonempty "+" spec)).
    reflexivity.
Qed.

(** Three instances.  With a [lower] that folds the Latin-1 capitals,
    the key named by a capital E with acute accent matches the
    specification written with the small letter.  With the 7-bit
    [lower], ["Ctrl+Alt+r"] with ctrl and alt held matches the key
    ["R"].  The empty specification does not match the key ["r"]. *)
Lemma matches_hotkey_unicode_exact_witness :
  matches_hotkey_with lower_latin1 (fun _ => false)
                      {| name := E_acute |} e_acute = true /\
  matches_hotkey_with PyStr.lower
                      (fun k => (k =? "ctrl")%string || (k =? "alt")%string)
                      {| name := "R" |} "Ctrl+Alt+r" = true /\
  matches_hotkey_with PyStr.lower (fun _ => false) {| name := "r" |} ""
    = false.
Proof.
  split; [|split].
  - apply (proj2 (proj2 (matches_hotkey_unicode_exact lower_latin1
                           (fun _ => false) {| name := E_acute |} e_acute))).
    + exact lower_latin1_lowers_tokenwise.
    + discriminate.
    + split; [reflexivity|].
      intros m Hin. simpl in Hin.
      destruct Hin as [<-|[<-|[<-|[<-|[]]]]]; reflexivity.
  - apply (proj1 (proj2 (matches_hotkey_unicode_exact PyStr.lower
                           (fun k => (k =? "ctrl")%string
                                     || (k =? "alt")%string)
                           {| name := "R" |} "Ctrl+Alt+r"))).
    + discriminate.
    + split; [reflexivity|].
      intros m Hin. simpl in Hin.
      destruct Hin as [<-|[<-|[<-|[<-|[]]]]]; reflexivity.
  - apply (proj1 (matches_hotkey_unicode_exact PyStr.lower (fun _ => false)
                    {| name := "r" |} "")).
    reflexivity.
Defined.

End HotkeyUnicodeFacts.
